(** * HCI transport-and-framing engine of the NINA Bluetooth adapter

    A shallow embedding of [hci_nina.go] (the engine: [poll],
    [sendCommandWithParams], [handleEventData]) and of [gap_nina.go]
    ([Scan], [Connect]).  Bytes and the other fixed-width integers of the
    Go code are integers in [Z] with the wrap-around of every conversion
    and of every typed arithmetic operation written out.  The engine is
    stateful: every method is an action of a small state monad whose
    results distinguish a normal return, a Go run-time panic, and the
    exhaustion of the fuel that bounds the loops of the model. *)

From Stdlib Require Import ZArith Lia String Ascii.
From stdpp Require Import base list.

Local Open Scope Z_scope.

(** ** Fixed-width integers *)

(** Conversion to [uint8] / [byte]. *)
Definition u8 (z : Z) : Z := z mod 256.

(** Conversion to [uint16]. *)
Definition u16 (z : Z) : Z := z mod 65536.

(** Conversion of a byte to [int8]. *)
Definition i8 (z : Z) : Z :=
  let b := u8 z in if 128 <=? b then b - 256 else b.

(** Wrap-around of [int64] arithmetic. *)
Definition i64 (z : Z) : Z := (z + 2 ^ 63) mod 2 ^ 64 - 2 ^ 63.

(** [int64(time.Second)], in nanoseconds. *)
Definition Second : Z := 1000000000.

(** ** Constants of the engine *)

Definition OGF_LINK_CTL : Z := 0x01.
Definition OGF_HOST_CTL : Z := 0x03.
Definition OGF_LE_CTL : Z := 0x08.

Definition LE_META_EVENT_CONN_COMPLETE : Z := 0x01.
Definition LE_META_EVENT_ADVERTISING_REPORT : Z := 0x02.
Definition LE_META_EVENT_LONG_TERM_KEY_REQUEST : Z := 0x05.
Definition LE_META_EVENT_REMOTE_CONN_PARAM_REQ : Z := 0x06.
Definition LE_META_EVENT_READ_LOCAL_P256_COMPLETE : Z := 0x08.
Definition LE_META_EVENT_GENERATE_DH_KEY_COMPLETE : Z := 0x09.
Definition LE_META_EVENT_ENHANCED_CONNECTION_COMPLETE : Z := 0x0A.

Definition HCI_COMMAND_PKT : Z := 0x01.
Definition HCI_ACLDATA_PKT : Z := 0x02.
Definition HCI_EVENT_PKT : Z := 0x04.

Definition EVT_DISCONN_COMPLETE : Z := 0x05.
Definition EVT_ENCRYPTION_CHANGE : Z := 0x08.
Definition EVT_CMD_COMPLETE : Z := 0x0e.
Definition EVT_CMD_STATUS : Z := 0x0f.
Definition EVT_NUM_COMP_PKTS : Z := 0x13.
Definition EVT_UNKNOWN : Z := 0x10.
Definition EVT_LE_META_EVENT : Z := 0x3e.

Definition OCF_DISCONNECT : Z := 0x0006.
Definition OCF_RESET : Z := 0x0003.
Definition OCF_LE_SET_ADVERTISE_ENABLE : Z := 0x000a.
Definition OCF_LE_SET_SCAN_PARAMETERS : Z := 0x000b.
Definition OCF_LE_SET_SCAN_ENABLE : Z := 0x000c.
Definition OCF_LE_CREATE_CONN : Z := 0x000d.
Definition OCF_LE_CANCEL_CONN : Z := 0x000e.

Definition HCI_OE_USER_ENDED_CONNECTION : Z := 0x13.

Definition HCIACLHeaderLen : Z := 5.
Definition HCIEvtHeaderLen : Z := 3.

(** [ogf<<10 | ocf], the opcode of a command. *)
Definition opcode_of (ogf ocf : Z) : Z := Z.lor (Z.shiftl ogf 10) ocf.

(** The error values of the package; [ErrUART] stands for whatever error
    the transport's [Write] returns. *)
Inductive error : Type :=
| ErrHCITimeout
| ErrHCIUnknownEvent
| ErrHCIUnknown
| ErrConnect
| errScanning
| errNotScanning
| ErrUART.

(** ** Data model *)

(** A Go slice over the engine's buffer [h.buf]: offset of its first
    element in the backing array, length and capacity.  Index expressions
    are checked against the length, slice expressions against the
    capacity. *)
Record slice : Type := mkSlice { s_off : Z; s_len : Z; s_cap : Z }.

Record leAdvertisingReport : Type := mkAdv {
  reported : bool;
  adv_status : Z;
  typ : Z;
  adv_peerBdaddrType : Z;
  adv_peerBdaddr : list Z;      (* [6]uint8 *)
  eirLength : Z;
  eirData : list Z;             (* [64]uint8 *)
  rssi : Z                      (* int8 *)
}.

Record leConnectData : Type := mkConn {
  connected : bool;
  conn_status : Z;
  handle : Z;                   (* uint16 *)
  role : Z;
  conn_peerBdaddrType : Z;
  conn_peerBdaddr : list Z      (* [6]uint8 *)
}.

Record hci : Type := mkHci {
  buf : list Z;                 (* make([]byte, 256) *)
  address : list Z;
  cmdCompleteOpcode : Z;
  cmdCompleteStatus : Z;
  cmdResponse : slice;          (* aliases [buf] *)
  scanning : bool;
  advData : leAdvertisingReport;
  connectData : leConnectData
}.

(** The serial device behind [h.uart].  Each element of [rx] answers one
    [Buffered() > 0] test of [poll]: [Some b] when a byte is waiting (the
    following [ReadByte] returns [b]), [None] when the queue is empty at
    that moment; once [rx] is exhausted nothing arrives any more.  Every
    chunking of the inbound stream is such a list.  [tx] logs the packets
    written, most recent first, and [wfail n] tells whether the write
    number [n] fails. *)
Record UART : Type := mkUART {
  rx : list (option Z);
  tx : list (list Z);
  wfail : nat -> bool
}.

(** The wall clock: [clock n] is what the reading number [n] of
    [time.Now().UnixNano()] returns, [ticks] counts the readings made. *)
Record Clock : Type := mkClock { clock : nat -> Z; ticks : nat }.

(** The state the methods run on: the adapter ([a.hci], [a.scanning]),
    its serial device and the clock. *)
Record St : Type := mkSt {
  uart : UART;
  time : Clock;
  a_hci : hci;
  a_scanning : bool
}.

(** ** Results and the state monad *)

(** The two run-time panics the code can raise, with the numbers Go
    prints for them. *)
Inductive panic : Type :=
| IndexOutOfRange (index len : Z)
| SliceBoundsOutOfRange (lo hi cap : Z).

Inductive Res (A : Type) : Type :=
| Done (a : A) (s : St)
| Panicked (p : panic)
| OutOfFuel.
Arguments Done {A} a s.
Arguments Panicked {A} p.
Arguments OutOfFuel {A}.

Definition M (A : Type) : Type := St -> Res A.

Definition ret {A} (a : A) : M A := fun s => Done a s.

Definition bind {A B} (m : M A) (k : A -> M B) : M B :=
  fun s => match m s with
           | Done a s' => k a s'
           | Panicked p => Panicked p
           | OutOfFuel => OutOfFuel
           end.

Definition throw {A} (p : panic) : M A := fun _ => Panicked p.
Definition get : M St := fun s => Done s s.
Definition put (s : St) : M unit := fun _ => Done tt s.
Definition gets {A} (f : hci -> A) : M A := fun s => Done (f (a_hci s)) s.

Notation "'let*' x ':=' m 'in' k" := (bind m (fun x => k))
  (at level 10, x name, m at level 100, k at level 200).
Notation "m >> k" := (bind m (fun _ => k))
  (at level 90, right associativity).

(** ** Field updates *)

Definition with_hci (f : hci -> hci) (s : St) : St :=
  mkSt (uart s) (time s) (f (a_hci s)) (a_scanning s).
Definition with_uart (f : UART -> UART) (s : St) : St :=
  mkSt (f (uart s)) (time s) (a_hci s) (a_scanning s).
Definition with_a_scanning (b : bool) (s : St) : St :=
  mkSt (uart s) (time s) (a_hci s) b.

Definition set_buf (b : list Z) (h : hci) : hci :=
  mkHci b (address h) (cmdCompleteOpcode h) (cmdCompleteStatus h)
        (cmdResponse h) (scanning h) (advData h) (connectData h).
Definition set_cmdCompleteOpcode (v : Z) (h : hci) : hci :=
  mkHci (buf h) (address h) v (cmdCompleteStatus h)
        (cmdResponse h) (scanning h) (advData h) (connectData h).
Definition set_cmdCompleteStatus (v : Z) (h : hci) : hci :=
  mkHci (buf h) (address h) (cmdCompleteOpcode h) v
        (cmdResponse h) (scanning h) (advData h) (connectData h).
Definition set_cmdResponse (v : slice) (h : hci) : hci :=
  mkHci (buf h) (address h) (cmdCompleteOpcode h) (cmdCompleteStatus h)
        v (scanning h) (advData h) (connectData h).
Definition set_scanning (v : bool) (h : hci) : hci :=
  mkHci (buf h) (address h) (cmdCompleteOpcode h) (cmdCompleteStatus h)
        (cmdResponse h) v (advData h) (connectData h).
Definition with_advData (f : leAdvertisingReport -> leAdvertisingReport)
    (h : hci) : hci :=
  mkHci (buf h) (address h) (cmdCompleteOpcode h) (cmdCompleteStatus h)
        (cmdResponse h) (scanning h) (f (advData h)) (connectData h).
Definition with_connectData (f : leConnectData -> leConnectData)
    (h : hci) : hci :=
  mkHci (buf h) (address h) (cmdCompleteOpcode h) (cmdCompleteStatus h)
        (cmdResponse h) (scanning h) (advData h) (f (connectData h)).

Definition set_reported v (a : leAdvertisingReport) :=
  mkAdv v (adv_status a) (typ a) (adv_peerBdaddrType a) (adv_peerBdaddr a)
        (eirLength a) (eirData a) (rssi a).
Definition set_adv_status v (a : leAdvertisingReport) :=
  mkAdv (reported a) v (typ a) (adv_peerBdaddrType a) (adv_peerBdaddr a)
        (eirLength a) (eirData a) (rssi a).
Definition set_typ v (a : leAdvertisingReport) :=
  mkAdv (reported a) (adv_status a) v (adv_peerBdaddrType a) (adv_peerBdaddr a)
        (eirLength a) (eirData a) (rssi a).
Definition set_adv_peerBdaddrType v (a : leAdvertisingReport) :=
  mkAdv (reported a) (adv_status a) (typ a) v (adv_peerBdaddr a)
        (eirLength a) (eirData a) (rssi a).
Definition set_adv_peerBdaddr v (a : leAdvertisingReport) :=
  mkAdv (reported a) (adv_status a) (typ a) (adv_peerBdaddrType a) v
        (eirLength a) (eirData a) (rssi a).
Definition set_eirLength v (a : leAdvertisingReport) :=
  mkAdv (reported a) (adv_status a) (typ a) (adv_peerBdaddrType a)
        (adv_peerBdaddr a) v (eirData a) (rssi a).
Definition set_eirData v (a : leAdvertisingReport) :=
  mkAdv (reported a) (adv_status a) (typ a) (adv_peerBdaddrType a)
        (adv_peerBdaddr a) (eirLength a) v (rssi a).
Definition set_rssi v (a : leAdvertisingReport) :=
  mkAdv (reported a) (adv_status a) (typ a) (adv_peerBdaddrType a)
        (adv_peerBdaddr a) (eirLength a) (eirData a) v.

(** [h.f = v] for a field of the engine, of [h.advData], of
    [h.connectData]. *)
Definition modify_hci (f : hci -> hci) : M unit :=
  fun s => Done tt (with_hci f s).
Definition modify_adv (f : leAdvertisingReport -> leAdvertisingReport) : M unit :=
  modify_hci (with_advData f).
Definition modify_conn (f : leConnectData -> leConnectData) : M unit :=
  modify_hci (with_connectData f).

(** ** Buffer and slice primitives *)

Definition len {A} (l : list A) : Z := Z.of_nat (length l).

(** [h.buf[i]] as an operand: [h.buf] is a slice of length [len (buf h)]. *)
Definition buf_load (i : Z) : M Z :=
  fun s =>
    match buf (a_hci s) !! Z.to_nat i with
    | Some v => if 0 <=? i then Done v s
                else Panicked (IndexOutOfRange i (len (buf (a_hci s))))
    | None => Panicked (IndexOutOfRange i (len (buf (a_hci s))))
    end.

(** [h.buf[i] = v]. *)
Definition buf_store (i v : Z) : M unit :=
  fun s =>
    if (0 <=? i) && (i <? len (buf (a_hci s)))
    then Done tt (with_hci (set_buf (<[Z.to_nat i := v]> (buf (a_hci s)))) s)
    else Panicked (IndexOutOfRange i (len (buf (a_hci s)))).

(** The slice [h.buf] itself. *)
Definition buf_slice : M slice :=
  fun s => let n := len (buf (a_hci s)) in Done (mkSlice 0 n n) s.

(** [b[lo:hi]]: the bounds are checked against the capacity of [b]. *)
Definition reslice (b : slice) (lo hi : Z) : M slice :=
  if (0 <=? lo) && (lo <=? hi) && (hi <=? s_cap b)
  then ret (mkSlice (s_off b + lo) (hi - lo) (s_cap b - lo))
  else throw (SliceBoundsOutOfRange lo hi (s_cap b)).

(** [b[k]] as an operand: the index is checked against the length. *)
Definition sl_get (b : slice) (k : Z) : M Z :=
  if (0 <=? k) && (k <? s_len b)
  then buf_load (s_off b + k)
  else throw (IndexOutOfRange k (s_len b)).

(** The bytes a slice denotes at this moment. *)
Definition sl_bytes (b : slice) : M (list Z) :=
  fun s => Done (take (Z.to_nat (s_len b))
                      (drop (Z.to_nat (s_off b)) (buf (a_hci s)))) s.

(** [copy(dst, src)] on arrays held by value: the first
    [min (len dst) (len src)] elements are overwritten. *)
Definition copy_list (dst src : list Z) : list Z :=
  take (length dst) src ++ drop (length src) dst.

(** [copy(dst, src)] into a slice of [h.buf]. *)
Definition copy_to_slice (dst : slice) (src : list Z) : M unit :=
  fun s =>
    let b := buf (a_hci s) in
    let o := Z.to_nat (s_off dst) in
    let window := take (Z.to_nat (s_len dst)) (drop o b) in
    Done tt (with_hci (set_buf (take o b ++ copy_list window src
                                  ++ drop (o + length window) b)) s).

(** ** The transport and the clock *)

(** One [h.uart.Buffered() > 0] test and, when it succeeds, the
    [h.uart.ReadByte()] that follows it. *)
Definition uart_next : M (option Z) :=
  fun s =>
    match rx (uart s) with
    | [] => Done None s
    | o :: rest =>
        Done (u8 <$> o)
             (with_uart (fun u => mkUART rest (tx u) (wfail u)) s)
    end.

(** [h.uart.Write(b)]: the error result only.  A write that fails is
    logged as an empty packet, so that [length tx] counts the writes. *)
Definition uart_write (b : slice) : M (option error) :=
  let* bytes := sl_bytes b in
  fun s =>
    let u := uart s in
    if wfail u (length (tx u))
    then Done (Some ErrUART)
              (with_uart (fun u => mkUART (rx u) ([] :: tx u) (wfail u)) s)
    else Done None
              (with_uart (fun u => mkUART (rx u) (bytes :: tx u) (wfail u)) s).

(** [time.Now().UnixNano()]. *)
Definition now : M Z :=
  fun s =>
    let c := time s in
    Done (clock c (ticks c))
         (mkSt (uart s) (mkClock (clock c) (S (ticks c))) (a_hci s)
               (a_scanning s)).

(** [time.Sleep(d)]: bytes that arrive meanwhile are part of [rx], the
    time that passes is part of [clock]. *)
Definition sleep (ms : Z) : M unit := ret tt.

(** ** The event decoder *)

Definition zeros (n : nat) : list Z := replicate n 0.

Definition clearAdvData : M (option error) :=
  modify_adv (set_reported false) >>
  modify_adv (set_adv_status 0) >>
  modify_adv (set_typ 0) >>
  modify_adv (set_adv_peerBdaddrType 0) >>
  modify_adv (set_adv_peerBdaddr (zeros 6)) >>
  modify_adv (set_eirLength 0) >>
  modify_adv (set_eirData (zeros 64)) >>
  modify_adv (set_rssi 0) >>
  ret None.

Definition clearConnectData : M (option error) :=
  modify_conn (fun _ => mkConn false 0 0 0 0 (zeros 6)) >>
  ret None.

Definition handleACLData (b : slice) : M (option error) := ret None.

(** The [LE_META_EVENT_CONN_COMPLETE] and
    [LE_META_EVENT_ENHANCED_CONNECTION_COMPLETE] case. *)
Definition handleConnComplete (b : slice) : M (option error) :=
  modify_conn (fun c => mkConn true (conn_status c) (handle c) (role c)
                               (conn_peerBdaddrType c) (conn_peerBdaddr c)) >>
  let* b3 := sl_get b 3 in
  modify_conn (fun c => mkConn (connected c) b3 (handle c) (role c)
                               (conn_peerBdaddrType c) (conn_peerBdaddr c)) >>
  let* b4 := sl_get b 4 in
  let* b5 := sl_get b 5 in
  modify_conn (fun c => mkConn (connected c) (conn_status c)
                               (Z.lor b4 (u16 (Z.shiftl b5 8))) (role c)
                               (conn_peerBdaddrType c) (conn_peerBdaddr c)) >>
  let* b6 := sl_get b 6 in
  modify_conn (fun c => mkConn (connected c) (conn_status c) (handle c) b6
                               (conn_peerBdaddrType c) (conn_peerBdaddr c)) >>
  let* b7 := sl_get b 7 in
  modify_conn (fun c => mkConn (connected c) (conn_status c) (handle c)
                               (role c) b7 (conn_peerBdaddr c)) >>
  let* src := reslice b 8 14 in
  let* bytes := sl_bytes src in
  modify_conn (fun c => mkConn (connected c) (conn_status c) (handle c)
                               (role c) (conn_peerBdaddrType c)
                               (copy_list (conn_peerBdaddr c) bytes)) >>
  ret None.

(** The [LE_META_EVENT_ADVERTISING_REPORT] case.  [13+eirLength+1] and
    [13+eirLength] are [uint8] expressions and wrap. *)
Definition handleAdvertisingReport (b : slice) : M (option error) :=
  modify_adv (set_reported true) >>
  let* b3 := sl_get b 3 in
  modify_adv (set_adv_status b3) >>
  let* b4 := sl_get b 4 in
  modify_adv (set_typ b4) >>
  let* b5 := sl_get b 5 in
  modify_adv (set_adv_peerBdaddrType b5) >>
  let* src := reslice b 6 12 in
  let* bytes := sl_bytes src in
  modify_adv (fun a => set_adv_peerBdaddr (copy_list (adv_peerBdaddr a) bytes) a) >>
  let* b12 := sl_get b 12 in
  modify_adv (set_eirLength b12) >>
  modify_adv (set_rssi 0) >>
  let* n := gets (fun h => eirLength (advData h)) in
  (if u8 (u8 (13 + n) + 1) >? s_len b then
     (* invalid packet. don't report it. *)
     clearAdvData >> ret tt
   else if n <? 64 then
     let* src := reslice b 13 (u8 (u8 (13 + n) + 1)) in
     let* bytes := sl_bytes src in
     modify_adv (fun a => set_eirData (copy_list (eirData a) bytes) a) >>
     let* st := gets (fun h => adv_status (advData h)) in
     if st =? 0x01 then
       let* r := sl_get b (u8 (13 + n)) in
       modify_adv (set_rssi (i8 r))
     else ret tt
   else ret tt) >>
  ret None.

Section EventDecoder.

(** [h.leSetAdvertiseEnable], which sends a command and polls in turn. *)
Variable leSetAdvertiseEnable : bool -> M (option error).

Definition handleEventData (b : slice) : M (option error) :=
  let* evt := sl_get b 0 in
  let* plen := sl_get b 1 in
  if evt =? EVT_DISCONN_COMPLETE then
    leSetAdvertiseEnable true
  else if evt =? EVT_ENCRYPTION_CHANGE then
    ret None
  else if evt =? EVT_CMD_COMPLETE then
    let* b3 := sl_get b 3 in
    let* b4 := sl_get b 4 in
    modify_hci (set_cmdCompleteOpcode (Z.lor b3 (u16 (Z.shiftl b4 8)))) >>
    let* b5 := sl_get b 5 in
    modify_hci (set_cmdCompleteStatus b5) >>
    (if plen >? 0 then
       let* r := reslice b 1 (u8 (plen + 2)) in
       modify_hci (set_cmdResponse r)
     else
       let* r := reslice b 0 0 in
       modify_hci (set_cmdResponse r)) >>
    ret None
  else if evt =? EVT_CMD_STATUS then
    let* b2 := sl_get b 2 in
    modify_hci (set_cmdCompleteStatus b2) >>
    let* b4 := sl_get b 4 in
    let* b5 := sl_get b 5 in
    modify_hci (set_cmdCompleteOpcode (Z.lor b4 (u16 (Z.shiftl b5 8)))) >>
    let* r := reslice b 0 0 in
    modify_hci (set_cmdResponse r) >>
    ret None
  else if evt =? EVT_NUM_COMP_PKTS then
    ret None
  else if evt =? EVT_LE_META_EVENT then
    let* sub := sl_get b 2 in
    if (sub =? LE_META_EVENT_CONN_COMPLETE)
       || (sub =? LE_META_EVENT_ENHANCED_CONNECTION_COMPLETE) then
      handleConnComplete b
    else if sub =? LE_META_EVENT_ADVERTISING_REPORT then
      handleAdvertisingReport b
    else if (sub =? LE_META_EVENT_LONG_TERM_KEY_REQUEST)
            || (sub =? LE_META_EVENT_REMOTE_CONN_PARAM_REQ)
            || (sub =? LE_META_EVENT_READ_LOCAL_P256_COMPLETE)
            || (sub =? LE_META_EVENT_GENERATE_DH_KEY_COMPLETE) then
      ret None
    else
      clearAdvData >> ret None
  else if evt =? EVT_UNKNOWN then
    ret (Some ErrHCIUnknownEvent)
  else
    ret None.

End EventDecoder.

(** ** The frame assembler and the command/response correlator *)

(** The length test of the ACL-data case of [poll]:
    [HCIACLHeaderLen + (h.buf[3] | (h.buf[4] << 8))], an expression of
    type [byte]. *)
Definition acl_full_length (b3 b4 : Z) : Z :=
  u8 (HCIACLHeaderLen + Z.lor b3 (u8 (Z.shiftl b4 8))).

(** The length test of the event case: [HCIEvtHeaderLen + h.buf[2]], of
    type [byte] too. *)
Definition evt_full_length (b2 : Z) : Z := u8 (HCIEvtHeaderLen + b2).

(** [h.leSetAdvertiseEnable], given [h.sendCommandWithParams]. *)
Definition leSetAdvertiseEnable_with
    (send : Z -> list Z -> M (option error)) (enabled : bool)
    : M (option error) :=
  send (opcode_of OGF_LE_CTL OCF_LE_SET_ADVERTISE_ENABLE)
       [if enabled then 1 else 0].

(** [poll_loop fuel i] is the [for h.uart.Buffered() > 0] loop of [poll]
    entered with the running count [i]; [send_wait] is the waiting loop of
    [sendCommandWithParams].  The three functions call one another (a
    disconnection event makes the decoder send a command), and every call
    and every iteration takes one unit of fuel. *)
Fixpoint poll_loop (fuel : nat) (i : Z) {struct fuel} : M (option error) :=
  match fuel with
  | O => fun _ => OutOfFuel
  | S fuel' =>
      let* rd := uart_next in
      match rd with
      | None => ret None
      | Some data =>
          buf_store i data >>
          let i := u8 (i + 1) in
          let* b0 := buf_load 0 in
          if b0 =? HCI_ACLDATA_PKT then
            if i >? HCIACLHeaderLen then
              let* b3 := buf_load 3 in
              let* b4 := buf_load 4 in
              if i >=? acl_full_length b3 b4 then
                let* hb := buf_slice in
                let* pkt := reslice hb 1 i in
                handleACLData pkt
              else sleep 10 >> poll_loop fuel' i
            else sleep 10 >> poll_loop fuel' i
          else if b0 =? HCI_EVENT_PKT then
            if i >? HCIEvtHeaderLen then
              let* b2 := buf_load 2 in
              if i >=? evt_full_length b2 then
                let* hb := buf_slice in
                let* pkt := reslice hb 1 i in
                handleEventData
                  (leSetAdvertiseEnable_with (sendCommandWithParams fuel'))
                  pkt
              else sleep 10 >> poll_loop fuel' i
            else sleep 10 >> poll_loop fuel' i
          else
            let i := 0 in
            (* return ErrHCIUnknown is commented out in the source *)
            sleep 10 >> poll_loop fuel' i
      end
  end

with sendCommandWithParams (fuel : nat) (opcode : Z) (params : list Z)
    {struct fuel} : M (option error) :=
  match fuel with
  | O => fun _ => OutOfFuel
  | S fuel' =>
      buf_store 0 HCI_COMMAND_PKT >>
      buf_store 1 (u8 (Z.land opcode 0xff)) >>
      buf_store 2 (u8 (Z.shiftr opcode 8)) >>
      buf_store 3 (u8 (len params)) >>
      let* hb := buf_slice in
      let* dst := reslice hb 4 (s_len hb) in
      copy_to_slice dst params >>
      let* pkt := reslice hb 0 (4 + len params) in
      let* werr := uart_write pkt in
      match werr with
      | Some e => ret (Some e)
      | None =>
          modify_hci (set_cmdCompleteOpcode 0xffff) >>
          modify_hci (set_cmdCompleteStatus 0xff) >>
          let* start := now in
          send_wait fuel' opcode start
      end
  end

with send_wait (fuel : nat) (opcode start : Z) {struct fuel}
    : M (option error) :=
  match fuel with
  | O => fun _ => OutOfFuel
  | S fuel' =>
      let* done := gets cmdCompleteOpcode in
      if done =? opcode then ret None
      else
        let* err := poll_loop fuel' 0 in
        match err with
        | Some e => ret (Some e)
        | None =>
            let* t := now in
            if Z.quot (i64 (t - start)) Second >? 3
            then ret (Some ErrHCITimeout)
            else send_wait fuel' opcode start
        end
  end.

Definition poll (fuel : nat) : M (option error) := poll_loop fuel 0.

Definition sendCommand (fuel : nat) (opcode : Z) : M (option error) :=
  sendCommandWithParams fuel opcode [].

Definition leSetAdvertiseEnable (fuel : nat) (enabled : bool)
    : M (option error) :=
  leSetAdvertiseEnable_with (sendCommandWithParams fuel) enabled.

(** ** Command helpers *)

Definition b2z (b : bool) : Z := if b then 1 else 0.

(** [binary.LittleEndian.PutUint16]. *)
Definition le16 (v : Z) : list Z := [u8 v; u8 (Z.shiftr (u16 v) 8)].

Definition leSetScanEnable (fuel : nat) (enabled duplicates : bool)
    : M (option error) :=
  modify_hci (set_scanning enabled) >>
  sendCommandWithParams fuel (opcode_of OGF_LE_CTL OCF_LE_SET_SCAN_ENABLE)
    [b2z enabled; b2z duplicates].

Definition leSetScanParameters (fuel : nat)
    (typ interval window ownBdaddrType filter : Z) : M (option error) :=
  sendCommandWithParams fuel (opcode_of OGF_LE_CTL OCF_LE_SET_SCAN_PARAMETERS)
    [typ; u8 (Z.land interval 0xff); u8 (Z.shiftr interval 8);
     u8 (Z.land window 0xff); u8 (Z.shiftr window 8);
     ownBdaddrType; filter].

Definition leCreateConn (fuel : nat) (interval window : Z)
    (initiatorFilter peerBdaddrType : Z) (peerBdaddr : list Z)
    (ownBdaddrType : Z)
    (minInterval maxInterval latency supervisionTimeout
     minCeLength maxCeLength : Z) : M (option error) :=
  sendCommandWithParams fuel (opcode_of OGF_LE_CTL OCF_LE_CREATE_CONN)
    (le16 interval ++ le16 window ++ [initiatorFilter; peerBdaddrType]
     ++ copy_list (zeros 6) peerBdaddr ++ [ownBdaddrType]
     ++ le16 minInterval ++ le16 maxInterval ++ le16 latency
     ++ le16 supervisionTimeout ++ le16 minCeLength ++ le16 maxCeLength).

Definition leCancelConn (fuel : nat) : M (option error) :=
  sendCommand fuel (opcode_of OGF_LE_CTL OCF_LE_CANCEL_CONN).

Definition disconnect (fuel : nat) (handle : Z) : M (option error) :=
  sendCommandWithParams fuel (opcode_of OGF_LINK_CTL OCF_DISCONNECT)
    (le16 handle ++ [HCI_OE_USER_ENDED_CONNECTION]).

(** [newHCI]: a 256-byte buffer, everything else zero. *)
Definition newHCI : hci :=
  mkHci (zeros 256) (zeros 6) 0 0 (mkSlice 0 0 0) false
        (mkAdv false 0 0 0 (zeros 6) 0 (zeros 64) 0)
        (mkConn false 0 0 0 0 (zeros 6)).

(** ** The scan/connect orchestrator *)

Record Address : Type := mkAddress { MAC : list Z; addr_typ : Z }.

Record AdvertisementFields : Type := mkFields { LocalName : string }.

Record ScanResult : Type := mkScanResult {
  sr_Address : Address;
  sr_RSSI : Z;
  sr_AdvertisementPayload : AdvertisementFields
}.

Record Device : Type := mkDevice { dev_Address : Address; dev_handle : Z }.

(** [makeAddress] and [makeNINAAddress] copy the six bytes. *)
Definition makeAddress (mac : list Z) : list Z := u8 <$> take 6 mac.
Definition makeNINAAddress (mac : list Z) : list Z := u8 <$> take 6 mac.

(** [string(bytes)]. *)
Definition string_of_bytes (l : list Z) : string :=
  foldr (fun b acc => String (ascii_of_N (Z.to_N b)) acc) EmptyString l.

(** An index expression and a slice expression on an array held by
    value, such as [a.hci.advData.eirData]. *)
Definition arr_get (a : list Z) (i : Z) : M Z :=
  match a !! Z.to_nat i with
  | Some v => if 0 <=? i then ret v else throw (IndexOutOfRange i (len a))
  | None => throw (IndexOutOfRange i (len a))
  end.

Definition arr_slice (a : list Z) (lo hi : Z) : M (list Z) :=
  if (0 <=? lo) && (lo <=? hi) && (hi <=? len a)
  then ret (take (Z.to_nat (hi - lo)) (drop (Z.to_nat lo) a))
  else throw (SliceBoundsOutOfRange lo hi (len a)).

(** How a statement ends inside a [for] loop. *)
Inductive ctl (R : Type) : Type :=
| Normal
| Break
| Continue
| Return (r : R).
Arguments Normal {R}.
Arguments Break {R}.
Arguments Continue {R}.
Arguments Return {R} r.

(** A [switch] statement: a [break] in one of its cases ends the switch,
    not the loop around it; [continue] and [return] pass through. *)
Definition switch_ {R} (cases : M (ctl R)) : M (ctl R) :=
  let* c := cases in
  match c with
  | Break => ret Normal
  | _ => ret c
  end.

(** [for { body }]: [None] when the loop is left by [break], [Some r]
    when the body returns [r]. *)
Fixpoint for_ever {R} (fuel : nat) (body : M (ctl R)) : M (option R) :=
  match fuel with
  | O => fun _ => OutOfFuel
  | S fuel' =>
      let* c := body in
      match c with
      | Return r => ret (Some r)
      | Break => ret None
      | Normal | Continue => for_ever fuel' body
      end
  end.

(** The loop over the EIR fields in [Scan], entered with the cursor [i]. *)
Fixpoint eir_loop (fuel : nat) (i : Z) (adf : AdvertisementFields)
    : M AdvertisementFields :=
  match fuel with
  | O => fun _ => OutOfFuel
  | S fuel' =>
      let* n := gets (fun h => eirLength (advData h)) in
      if i <? n then
        let* d := gets (fun h => eirData (advData h)) in
        let* l := arr_get d i in
        let* t := arr_get d (i + 1) in
        if l <? 1 then ret adf
        else
          let* adf :=
            (if (t =? 0x08) || (t =? 0x09) then
               let* name := arr_slice d (i + 2) (i + 2 + l) in
               ret (mkFields (string_of_bytes name))
             else ret adf) in
          eir_loop fuel' (i + (l + 1)) adf
      else ret adf
  end.

Section Scan.

Variable callback : ScanResult -> M unit.

(** The [switch] of the scan loop, after [poll] has returned. *)
Definition scan_dispatch : M (ctl (option error)) :=
  switch_
    (let* rep := gets (fun h => reported (advData h)) in
     if rep then
       let* t := gets (fun h => typ (advData h)) in
       if negb (t =? 0x04) then
         clearAdvData >> ret Continue
       else
         let adf := mkFields EmptyString in
         let* n := gets (fun h => eirLength (advData h)) in
         if n >? 64 then
           clearAdvData >> ret Continue
         else
           let* adf := eir_loop 64 0 adf in
           let* ad := gets advData in
           callback
             (mkScanResult
                (mkAddress (makeAddress (adv_peerBdaddr ad))
                           (adv_peerBdaddrType ad))
                (rssi ad)
                adf) >>
           clearAdvData >>
           ret Normal
     else
       let* st := get in
       if negb (a_scanning st) then ret (Return None)
       else sleep 100 >> ret Normal).

Definition scan_body (fuel : nat) : M (ctl (option error)) :=
  let* err := poll fuel in
  match err with
  | Some e => ret (Return (Some e))
  | None => scan_dispatch
  end.

Definition Scan (fuel : nat) : M (option error) :=
  let* st := get in
  if a_scanning st then ret (Some errScanning)
  else
    let* e := leSetScanEnable fuel false true in
    match e with
    | Some _ => ret e
    | None =>
        let* e := leSetScanParameters fuel 0x01 0x0020 0x0020 0x00 0x00 in
        match e with
        | Some _ => ret e
        | None =>
            (fun s => Done tt (with_a_scanning true s)) >>
            let* e := leSetScanEnable fuel true false in
            match e with
            | Some _ => ret e
            | None =>
                let* r := for_ever fuel (scan_body fuel) in
                match r with
                | Some e => ret e
                | None => ret None
                end
            end
        end
    end.

End Scan.

Definition StopScan (fuel : nat) : M (option error) :=
  let* st := get in
  if negb (a_scanning st) then ret (Some errNotScanning)
  else
    let* e := leSetScanEnable fuel false false in
    match e with
    | Some _ => ret e
    | None => (fun s => Done tt (with_a_scanning false s)) >> ret None
    end.

(** One iteration of the loop of [Connect]. *)
Definition connect_body (fuel : nat) (start : Z)
    : M (ctl (option Device * option error)) :=
  let* err := poll fuel in
  match err with
  | Some e => ret (Return (None, Some e))
  | None =>
      switch_
        (let* c := gets connectData in
         if connected c then
           (* the deferred clearConnectData runs once the result is built *)
           let dev := mkDevice (mkAddress (makeAddress (conn_peerBdaddr c))
                                          (conn_peerBdaddrType c))
                               (handle c) in
           clearConnectData >> ret (Return (Some dev, None))
         else
           (* check for timeout *)
           let* t := now in
           if Z.quot (i64 (t - start)) Second >? 5 then ret Break
           else sleep 100 >> ret Normal)
  end.

Definition Connect (fuel : nat) (address : Address)
    : M (option Device * option error) :=
  let* e := leCreateConn fuel 0x0060 0x0030 0x00 (addr_typ address)
              (makeNINAAddress (MAC address))
              0x00 0x0006 0x000c 0x0000 0x00c8 0x0004 0x0006 in
  match e with
  | Some e => ret (None, Some e)
  | None =>
      let* start := now in
      let* r := for_ever fuel (connect_body fuel start) in
      match r with
      | Some res => ret res
      | None =>
          let* e := leCancelConn fuel in
          match e with
          | Some e => ret (None, Some e)
          | None => ret (None, Some ErrConnect)
          end
      end
  end.

(** ** The rest of the engine and of the adapter *)

Definition OGF_INFO_PARAM : Z := 0x04.
Definition OCF_SET_EVENT_MASK : Z := 0x0001.
Definition OCF_READ_BD_ADDR : Z := 0x0009.

Definition set_address (v : list Z) (h : hci) : hci :=
  mkHci (buf h) v (cmdCompleteOpcode h) (cmdCompleteStatus h)
        (cmdResponse h) (scanning h) (advData h) (connectData h).

(** The loop of [start]: read and drop bytes as long as the transport
    has one buffered. *)
Fixpoint start_loop (fuel : nat) : M (option error) :=
  match fuel with
  | O => fun _ => OutOfFuel
  | S fuel' =>
      let* rd := uart_next in
      match rd with
      | None => ret None
      | Some _ => start_loop fuel'
      end
  end.

Definition start (fuel : nat) : M (option error) := start_loop fuel.

Definition stop : M (option error) := ret None.

Definition reset (fuel : nat) : M (option error) :=
  sendCommand fuel (opcode_of OGF_HOST_CTL OCF_RESET).

(** [binary.LittleEndian.PutUint64]. *)
Definition le64 (v : Z) : list Z :=
  (fun k => u8 (Z.shiftr v (8 * k))) <$> [0; 1; 2; 3; 4; 5; 6; 7].

Definition setEventMask (fuel : nat) (eventMask : Z) : M (option error) :=
  sendCommandWithParams fuel (opcode_of OGF_HOST_CTL OCF_SET_EVENT_MASK)
    (le64 eventMask).

Definition setLeEventMask (fuel : nat) (eventMask : Z) : M (option error) :=
  sendCommandWithParams fuel (opcode_of OGF_LE_CTL 0x01) (le64 eventMask).

(** [readBdAddr]: [copy(h.address[:], h.cmdResponse[:7])] after the
    command. *)
Definition readBdAddr (fuel : nat) : M (option error) :=
  let* e := sendCommand fuel (opcode_of OGF_INFO_PARAM OCF_READ_BD_ADDR) in
  match e with
  | Some _ => ret e
  | None =>
      let* r := gets cmdResponse in
      let* src := reslice r 0 7 in
      let* bytes := sl_bytes src in
      modify_hci (fun h => set_address (copy_list (address h) bytes) h) >>
      ret None
  end.

(** [Adapter.Address]: the MAC address, six zero bytes with an error. *)
Definition Address_ (fuel : nat) : M (list Z * option error) :=
  let* e := readBdAddr fuel in
  match e with
  | Some _ => ret (zeros 6, e)
  | None =>
      let* a := gets address in
      ret (makeAddress a, None)
  end.

(** [Device.Disconnect]. *)
Definition Disconnect (fuel : nat) (d : Device) : M (option error) :=
  disconnect fuel (dev_handle d).

(** [Adapter.Enable].  The pins and the configuration of the serial port
    act on the hardware only, which the state does not describe; the
    result of [start] is dropped, as in the source. *)
Definition Enable (fuel : nat) : M (option error) :=
  sleep 100 >>
  sleep 1000 >>
  (fun s => Done tt (with_hci (fun _ => newHCI) s)) >>
  start fuel >>
  let* e := reset fuel in
  match e with
  | Some _ => ret e
  | None =>
      sleep 150 >>
      let* e := setEventMask fuel 0x3FFFFFFFFFFFFFFF in
      match e with
      | Some _ => ret e
      | None =>
          let* e := setLeEventMask fuel 0x00000000000003FF in
          match e with
          | Some _ => ret e
          | None => ret None
          end
      end
  end.

(** * Vocabulary of the properties and the machines they are checked on *)

(** ** Invariants *)

(** The part of the state that no engine method other than
    [leSetScanEnable] writes. *)
Definition stable (s s' : St) : Prop :=
  scanning (a_hci s') = scanning (a_hci s)
  /\ a_scanning s' = a_scanning s
  /\ length (buf (a_hci s')) = length (buf (a_hci s)).

(** [keeps m Q]: whenever [m] returns, the stable part of the state is
    as before and the value returned satisfies [Q]. *)
Definition keeps {A} (m : M A) (Q : A -> Prop) : Prop :=
  forall s, match m s with
            | Done a s' => stable s s' /\ Q a
            | _ => True
            end.

(** The only error of a write is the transport's. *)
Definition is_write_result (r : option error) : Prop :=
  r = None \/ r = Some ErrUART.

(** The errors the engine reports. *)
Definition engine_error (r : option error) : Prop :=
  r = None \/ r = Some ErrHCITimeout \/ r = Some ErrHCIUnknownEvent
  \/ r = Some ErrUART.

(** ** What the scan loop does with a report *)

(** Actions that only read the state. *)
Definition reads {A} (m : M A) : Prop :=
  forall s a s', m s = Done a s' -> s' = s.

(** The result [Scan] hands to the callback for the report in the slot,
    given the fields decoded from its EIR data. *)
Definition scan_result_of (ad : leAdvertisingReport)
    (adf : AdvertisementFields) : ScanResult :=
  mkScanResult (mkAddress (makeAddress (adv_peerBdaddr ad))
                          (adv_peerBdaddrType ad))
               (rssi ad) adf.

(** The report in the slot is surfaced: whatever the callback is, the
    iteration runs it once on the result, then clears the slot. *)
Definition surfaces (s : St) (r : ScanResult) : Prop :=
  forall callback,
    scan_dispatch callback s = (callback r >> clearAdvData >> ret Normal) s.

(** The report in the slot is dropped: whatever the callback is, the
    iteration clears the slot and continues without running it. *)
Definition drops (s : St) : Prop :=
  forall callback,
    scan_dispatch callback s = (clearAdvData >> ret Continue) s.

(** ** Machines and inbound streams *)

(** A stream that is delivered without gaps. *)
Definition stream (l : list Z) : list (option Z) := Some <$> l.

(** A clock that advances one second per reading. *)
Definition seconds_clock : Clock := mkClock (fun n => Z.of_nat n * Second) 0.

(** A freshly enabled adapter whose transport delivers [r]. *)
Definition boot (r : list (option Z)) : St :=
  mkSt (mkUART r [] (fun _ => false)) seconds_clock newHCI false.

(** The state a run ends in ([d] when it does not return). *)
Definition final_state {A} (r : Res A) (d : St) : St :=
  match r with Done _ s => s | _ => d end.

(** The controller answers the scan-enable command with a
    command-complete event. *)
Definition scan_enable_ok : St :=
  boot (stream [0x04; 0x0e; 0x04; 0x01; 0x0c; 0x20; 0x00]).

(** The state in which [leSetScanEnable(true, false)] returns there. *)
Definition scan_enable_ok_after : St :=
  Eval vm_compute in final_state (leSetScanEnable 12 true false scan_enable_ok)
                                 scan_enable_ok.

(** The controller acknowledges the create-connection command with a
    command-status event and then stays silent; the clock advances one
    second per reading. *)
Definition connect_silent : St :=
  boot (stream [0x04; 0x0f; 0x04; 0x00; 0x01; 0x0d; 0x20]).

(** The peripheral the examples connect to. *)
Definition peer : Address := mkAddress [0xAA; 0xBB; 0xCC; 0xDD; 0xEE; 0xFF] 0.

(** The state in which [leCreateConn] returns there. *)
Definition connect_silent_created : St :=
  Eval vm_compute in
    final_state
      (leCreateConn 12 0x0060 0x0030 0x00 (addr_typ peer)
         (makeNINAAddress (MAC peer))
         0x00 0x0006 0x000c 0x0000 0x00c8 0x0004 0x0006 connect_silent)
      connect_silent.

(** A command-complete event for the NOP opcode: three parameter bytes
    (number of packets, opcode), no status. *)
Definition nop_command_complete : list Z :=
  [0x04; 0x0e; 0x03; 0x01; 0x00; 0x00].

(** The unknown-event frame [04 10 01 00] with a moment of empty transport
    after its second byte. *)
Definition split_frame : St :=
  boot [Some 0x04; Some 0x10; None; Some 0x01; Some 0x00].

(** The state in which the first [poll] of [split_frame] ends. *)
Definition split_frame_first_poll : St :=
  Eval vm_compute in final_state (poll 4 split_frame) split_frame.

(** An advertising report of type 0x00 (connectable undirected
    advertising) with a flags field, RSSI byte 0xCE. *)
Definition adv_ind_report : list Z :=
  [0x04; 0x3e; 0x0f; 0x02; 0x01; 0x00; 0x00;
   0xAA; 0xBB; 0xCC; 0xDD; 0xEE; 0xFF;
   0x03; 0x02; 0x01; 0x06; 0xCE].

(** The state in which the [poll] that reads this report ends. *)
Definition adv_ind_polled : St :=
  Eval vm_compute in
    final_state (poll 18 (boot (stream adv_ind_report)))
                (boot (stream adv_ind_report)).

(** A scan response (type 0x04) whose EIR data is the single field
    len=5, tag=0x09, "Test", followed by the RSSI byte 0xCE. *)
Definition test_name_report : list Z :=
  [0x04; 0x3e; 0x12; 0x02; 0x01; 0x04; 0x00;
   0xAA; 0xBB; 0xCC; 0xDD; 0xEE; 0xFF;
   0x06; 0x05; 0x09; 0x54; 0x65; 0x73; 0x74; 0xCE].

(** The state in which the [poll] that reads this report ends. *)
Definition test_name_polled : St :=
  Eval vm_compute in
    final_state (poll 21 (boot (stream test_name_report)))
                (boot (stream test_name_report)).

(** The five bytes "Test" and 0xCE. *)
Definition test_name_decoded : string :=
  String.append "Test" (String (ascii_of_N 0xCE) EmptyString).

(** A scan response that declares an EIR length of exactly 64. *)
Definition eir64_report : list Z :=
  [0x04; 0x3e; 0x4c; 0x02; 0x01; 0x04; 0x00;
   0xAA; 0xBB; 0xCC; 0xDD; 0xEE; 0xFF; 0x40]
  ++ [0x05; 0x09; 0x54; 0x65; 0x73; 0x74] ++ zeros 58 ++ [0xCE].

(** The state in which the [poll] that reads this report ends. *)
Definition eir64_polled : St :=
  Eval vm_compute in
    final_state (poll 79 (boot (stream eir64_report)))
                (boot (stream eir64_report)).

(** A connection-complete event whose status byte is 0x3E (connection
    failed to be established), handle 0x0040. *)
Definition conn_failed_event : list Z :=
  [0x04; 0x3e; 0x13; 0x01; 0x3e; 0x40; 0x00; 0x00; 0x00;
   0xAA; 0xBB; 0xCC; 0xDD; 0xEE; 0xFF;
   0x18; 0x00; 0x00; 0x00; 0xc8; 0x00; 0x00].


(** ** The older variant of the assembler *)

Module Legacy.

(** The length test of the ACL-data case in the older [poll]:
    [HCIACLHeaderLen+(h.buf[3]+(h.buf[4]<<8))], a [byte] expression
    as well. *)
Definition acl_full_length (b3 b4 : Z) : Z :=
  u8 (HCIACLHeaderLen + u8 (b3 + u8 (Z.shiftl b4 8))).

End Legacy.

(** ** Wire formats and states of the correlator *)

(** A byte. *)
Definition is_byte (b : Z) : Prop := 0 <= b < 256.

(** The command packet for an opcode and its parameters. *)
Definition command_packet (opcode : Z) (params : list Z) : list Z :=
  [HCI_COMMAND_PKT; u8 (Z.land opcode 0xff); u8 (Z.shiftr opcode 8);
   u8 (len params)] ++ params.

(** A buffer whose first bytes have been overwritten by [pre]. *)
Definition loaded (pre b : list Z) : list Z := pre ++ drop (length pre) b.

(** The state in which [sendCommandWithParams] starts to wait: packet
    in the buffer and on the wire, completion state reset, one clock
    reading taken. *)
Definition sent_state (opcode : Z) (params : list Z) (s : St) : St :=
  mkSt (mkUART (rx (uart s)) (command_packet opcode params :: tx (uart s))
               (wfail (uart s)))
       (mkClock (clock (time s)) (S (ticks (time s))))
       (mkHci (loaded (command_packet opcode params) (buf (a_hci s)))
              (address (a_hci s)) 0xffff 0xff (cmdResponse (a_hci s))
              (scanning (a_hci s)) (advData (a_hci s))
              (connectData (a_hci s)))
       (a_scanning s).

(** The state in which it returns when the write fails. *)
Definition unsent_state (opcode : Z) (params : list Z) (s : St) : St :=
  mkSt (mkUART (rx (uart s)) ([] :: tx (uart s)) (wfail (uart s)))
       (time s)
       (mkHci (loaded (command_packet opcode params) (buf (a_hci s)))
              (address (a_hci s)) (cmdCompleteOpcode (a_hci s))
              (cmdCompleteStatus (a_hci s)) (cmdResponse (a_hci s))
              (scanning (a_hci s)) (advData (a_hci s))
              (connectData (a_hci s)))
       (a_scanning s).

(** The state after [n] more readings of the clock. *)
Definition tick (n : nat) (s : St) : St :=
  mkSt (uart s) (mkClock (clock (time s)) (n + ticks (time s))) (a_hci s)
       (a_scanning s).

(** The whole seconds elapsed since [start] at the reading number [n],
    as the timeout tests compute them. *)
Definition elapsed (s : St) (start : Z) (n : nat) : Z :=
  Z.quot (i64 (clock (time s) n - start)) Second.

(** ** Frames *)

(** An event frame as the transport delivers it. *)
Definition event_frame (evt : Z) (params : list Z) : list Z :=
  HCI_EVENT_PKT :: evt :: len params :: params.

(** The state in which the buffer holds [b] and the transport still
    holds [r]. *)
Definition received (b : list Z) (r : list (option Z)) (s : St) : St :=
  mkSt (mkUART r (tx (uart s)) (wfail (uart s))) (time s)
       (set_buf b (a_hci s)) (a_scanning s).

(** An ACL-data frame: handle and flags, the two length bytes, payload. *)
Definition acl_frame (h0 h1 b3 b4 : Z) (payload : list Z) : list Z :=
  HCI_ACLDATA_PKT :: h0 :: h1 :: b3 :: b4 :: payload.

(** The state in which a completion has been recorded. *)
Definition completed (opcode status : Z) (resp : slice) (s : St) : St :=
  with_hci (fun h => set_cmdResponse resp
                       (set_cmdCompleteStatus status
                          (set_cmdCompleteOpcode opcode h))) s.

(** A 16-bit value from its two bytes, as the decoder computes it. *)
Definition u16_of_bytes (lo hi : Z) : Z := Z.lor lo (u16 (Z.shiftl hi 8)).

(** The opcode of the read-address command. *)
Definition READ_BD_ADDR : Z := opcode_of OGF_INFO_PARAM OCF_READ_BD_ADDR.

(** The command-complete event that answers [opcode]. *)
Definition completion_of (opcode ncmd st : Z) (ret_params : list Z) : list Z :=
  event_frame EVT_CMD_COMPLETE
    (ncmd :: u8 (Z.land opcode 0xff) :: u8 (Z.shiftr opcode 8)
          :: st :: ret_params).

(** ** Advertising reports *)

(** The slot for the last advertising report when it is empty. *)
Definition cleared : leAdvertisingReport :=
  mkAdv false 0 0 0 (zeros 6) 0 (zeros 64) 0.

(** The LE meta event that carries one advertising report: the bytes the
    decoder reads as status, type, address type, address and EIR length
    [n], and what follows. *)
Definition adv_report (st typ atype : Z) (addr : list Z) (n : Z)
    (tail : list Z) : list Z :=
  event_frame EVT_LE_META_EVENT
    (LE_META_EVENT_ADVERTISING_REPORT :: st :: typ :: atype
       :: addr ++ n :: tail).

(** The state in which the slot holds [a]. *)
Definition with_slot (a : leAdvertisingReport) (s : St) : St :=
  with_hci (with_advData (fun _ => a)) s.

(** ** Scanning sessions *)

(** The adapter that scans and whose controller stays silent. *)
Definition scanning_silent : St := with_a_scanning true (boot []).

(** The state in which [StopScan] returns there. *)
Definition scanning_silent_stopped : St :=
  Eval vm_compute in final_state (StopScan 8 scanning_silent) scanning_silent.

(** A controller that completes the three commands of [Scan], delivers
    one scan response and completes the command of [StopScan]. *)
Definition scan_session : list Z :=
  completion_of 0x200c 1 0 [] ++ completion_of 0x200b 1 0 []
    ++ completion_of 0x200c 1 0 [] ++ test_name_report
    ++ completion_of 0x200c 1 0 [].

(** A callback that stops the scan at the first result. *)
Definition stop_on_first_result : ScanResult -> M unit :=
  fun _ => StopScan 40 >> ret tt.

(** The state in which [Scan] returns there. *)
Definition scan_session_end : St :=
  Eval vm_compute in
    final_state (Scan stop_on_first_result 40 (boot (stream scan_session)))
                (boot (stream scan_session)).

(** ** Bringing the adapter up *)


(** The opcodes and the packets of [Enable]. *)
Definition RESET : Z := opcode_of OGF_HOST_CTL OCF_RESET.

Definition reset_packet : list Z := [0x01; 0x03; 0x0c; 0x00].


(** ** Connection events *)

(** The LE meta event that reports a connection, with the subevent code
    [sub]. *)
Definition conn_complete (sub status lo hi role atype : Z)
    (addr tail : list Z) : list Z :=
  event_frame EVT_LE_META_EVENT
    (sub :: status :: lo :: hi :: role :: atype :: addr ++ tail).

(** The state in which the connection data is [c]. *)
Definition with_conn (c : leConnectData) (s : St) : St :=
  with_hci (with_connectData (fun _ => c)) s.

(** * Properties *)

(** ** What the engine leaves untouched *)

Lemma stable_refl s : stable s s.
Proof. by repeat split. Qed.

Lemma stable_trans s1 s2 s3 : stable s1 s2 -> stable s2 s3 -> stable s1 s3.
Proof. unfold stable. intuition congruence. Qed.

Lemma keeps_ret {A} (a : A) (Q : A -> Prop) : Q a -> keeps (ret a) Q.
Proof. intros H s. simpl. auto using stable_refl. Qed.

Lemma keeps_bind {A B} (m : M A) (k : A -> M B) P Q :
  keeps m P -> (forall a, P a -> keeps (k a) Q) -> keeps (bind m k) Q.
Proof.
  intros Hm Hk s. unfold bind. specialize (Hm s).
  destruct (m s) as [a s1| |]; [|done..].
  destruct Hm as [Hs Ha]. specialize (Hk a Ha s1).
  destruct (k a s1) as [b s2| |]; [|done..].
  destruct Hk. eauto using stable_trans.
Qed.

Lemma keeps_weaken {A} (m : M A) (P Q : A -> Prop) :
  keeps m P -> (forall a, P a -> Q a) -> keeps m Q.
Proof.
  intros Hm HPQ s. specialize (Hm s). destruct (m s); [|done..].
  destruct Hm. auto.
Qed.

Lemma keeps_throw {A} p (Q : A -> Prop) : keeps (throw p) Q.
Proof. by intros s. Qed.

Lemma keeps_modify_hci f :
  (forall h, scanning (f h) = scanning h) ->
  (forall h, length (buf (f h)) = length (buf h)) ->
  keeps (modify_hci f) (fun _ => True).
Proof. intros H1 H2 s. simpl. unfold stable. simpl. auto. Qed.

Lemma keeps_modify_adv f : keeps (modify_adv f) (fun _ => True).
Proof. by apply keeps_modify_hci. Qed.

Lemma keeps_modify_conn f : keeps (modify_conn f) (fun _ => True).
Proof. by apply keeps_modify_hci. Qed.

Lemma keeps_gets {A} (f : hci -> A) : keeps (gets f) (fun _ => True).
Proof. intros s. simpl. auto using stable_refl. Qed.

Lemma keeps_buf_load i : keeps (buf_load i) (fun _ => True).
Proof.
  intros s. unfold buf_load.
  destruct (_ !! _); [|done]. destruct (0 <=? i); [|done].
  auto using stable_refl.
Qed.

Lemma keeps_buf_store i v : keeps (buf_store i v) (fun _ => True).
Proof.
  intros s. unfold buf_store. destruct (_ && _); [|done].
  unfold stable. simpl. by rewrite length_insert.
Qed.

Lemma keeps_buf_slice : keeps buf_slice (fun _ => True).
Proof. intros s. simpl. auto using stable_refl. Qed.

Lemma keeps_reslice b lo hi : keeps (reslice b lo hi) (fun _ => True).
Proof.
  unfold reslice. destruct (_ && _); [by apply keeps_ret | apply keeps_throw].
Qed.

Lemma keeps_sl_get b k : keeps (sl_get b k) (fun _ => True).
Proof.
  unfold sl_get. destruct (_ && _); [apply keeps_buf_load | apply keeps_throw].
Qed.

Lemma keeps_sl_bytes b : keeps (sl_bytes b) (fun _ => True).
Proof. intros s. simpl. auto using stable_refl. Qed.

Lemma length_copy_list dst src : length (copy_list dst src) = length dst.
Proof.
  unfold copy_list. rewrite length_app, length_take, length_drop. lia.
Qed.

Lemma keeps_copy_to_slice dst src : keeps (copy_to_slice dst src) (fun _ => True).
Proof.
  intros s. unfold copy_to_slice, stable. simpl. split; [|done].
  split; [done|]. split; [done|].
  rewrite !length_app, length_copy_list, !length_take, !length_drop. lia.
Qed.

Lemma keeps_uart_next : keeps uart_next (fun _ => True).
Proof.
  intros s. unfold uart_next. by destruct (rx (uart s)).
Qed.

Lemma keeps_uart_write b : keeps (uart_write b) is_write_result.
Proof.
  intros s. unfold uart_write, bind, sl_bytes, is_write_result.
  destruct (wfail _ _); simpl; unfold stable; simpl; auto.
Qed.

Lemma keeps_now : keeps now (fun _ => True).
Proof. by intros s. Qed.

Lemma keeps_sleep ms : keeps (sleep ms) (fun _ => True).
Proof. by apply keeps_ret. Qed.

Create HintDb keeps.
#[local] Hint Resolve keeps_modify_adv keeps_modify_conn keeps_gets
  keeps_buf_load keeps_buf_store keeps_buf_slice keeps_reslice keeps_sl_get
  keeps_sl_bytes keeps_copy_to_slice keeps_uart_next keeps_uart_write
  keeps_now keeps_sleep keeps_throw : keeps.

(** One step through a sequence of actions. *)
Ltac keeps_step :=
  lazymatch goal with
  | |- keeps (bind _ _) _ =>
      first [ eapply keeps_bind; [solve [eauto with keeps] | intros ? ?]
            | eapply keeps_bind with (P := fun _ => True); [| intros ? ?] ]
  | |- keeps (ret _) _ => apply keeps_ret
  | |- keeps (if ?c then _ else _) _ => destruct c
  | |- keeps (match ?x with _ => _ end) _ => destruct x
  | |- keeps _ _ => solve [eauto with keeps]
  end.

Lemma keeps_set_cmdCompleteOpcode v :
  keeps (modify_hci (set_cmdCompleteOpcode v)) (fun _ => True).
Proof. by apply keeps_modify_hci. Qed.

Lemma keeps_set_cmdCompleteStatus v :
  keeps (modify_hci (set_cmdCompleteStatus v)) (fun _ => True).
Proof. by apply keeps_modify_hci. Qed.

Lemma keeps_set_cmdResponse v :
  keeps (modify_hci (set_cmdResponse v)) (fun _ => True).
Proof. by apply keeps_modify_hci. Qed.

#[local] Hint Resolve keeps_set_cmdCompleteOpcode keeps_set_cmdCompleteStatus
  keeps_set_cmdResponse : keeps.

Lemma keeps_clearAdvData : keeps clearAdvData engine_error.
Proof. unfold clearAdvData. repeat keeps_step. by left. Qed.

Lemma keeps_clearAdvData_any : keeps clearAdvData (fun _ => True).
Proof. eapply keeps_weaken; [apply keeps_clearAdvData | done]. Qed.
#[local] Hint Resolve keeps_clearAdvData_any : keeps.

Lemma keeps_handleConnComplete b : keeps (handleConnComplete b) engine_error.
Proof. unfold handleConnComplete. repeat keeps_step. by left. Qed.

Lemma keeps_handleAdvertisingReport b :
  keeps (handleAdvertisingReport b) engine_error.
Proof.
  unfold handleAdvertisingReport.
  repeat keeps_step; done || by left.
Qed.

Lemma keeps_handleEventData la b :
  keeps (la true) engine_error ->
  keeps (handleEventData la b) engine_error.
Proof.
  intros Hla. unfold handleEventData.
  repeat keeps_step;
    try (apply Hla || apply keeps_handleConnComplete
         || apply keeps_handleAdvertisingReport);
    unfold engine_error; auto.
Qed.

(** Every engine method keeps the stable part of the state and reports
    only engine errors. *)
Lemma keeps_engine (fuel : nat) :
  (forall i, keeps (poll_loop fuel i) engine_error)
  /\ (forall opcode params,
        keeps (sendCommandWithParams fuel opcode params) engine_error)
  /\ (forall opcode start, keeps (send_wait fuel opcode start) engine_error).
Proof.
  induction fuel as [|fuel (IHp & IHs & IHw)].
  { by repeat split; intros; intros s. }
  split; [|split].
  - intros i. simpl.
    repeat keeps_step;
      lazymatch goal with
      | |- keeps (handleACLData _) _ => apply keeps_ret; by left
      | |- keeps (handleEventData _ _) _ =>
          apply keeps_handleEventData, IHs
      | |- keeps (poll_loop _ _) _ => apply IHp
      | |- _ => by left
      end.
  - intros opcode params. simpl.
    do 8 keeps_step.
    eapply keeps_bind; [apply keeps_uart_write|].
    intros r [-> | ->].
    + by repeat keeps_step.
    + apply keeps_ret. unfold engine_error. auto.
  - intros opcode start. simpl.
    keeps_step. keeps_step; [by apply keeps_ret; left|].
    eapply keeps_bind; [apply IHp|].
    intros r Hr. destruct r as [e|].
    + by apply keeps_ret.
    + repeat keeps_step. unfold engine_error. auto.
Qed.

Lemma keeps_poll fuel : keeps (poll fuel) engine_error.
Proof. apply keeps_engine. Qed.

Lemma keeps_sendCommandWithParams fuel opcode params :
  keeps (sendCommandWithParams fuel opcode params) engine_error.
Proof. apply keeps_engine. Qed.

(** ** C10 *)

(** C10. [leSetScanEnable(enabled, duplicates)] assigns [h.scanning]
    before it sends the command, and nothing run by the send, the poll
    loop or the event decoder writes the flag again: whenever the call
    returns, with [nil], with the transport's write error or with the
    timeout, the flag equals [enabled]. *)
Theorem C10_leSetScanEnable_sets_scanning
    (fuel : nat) (enabled duplicates : bool) (s s' : St) (r : option error) :
  leSetScanEnable fuel enabled duplicates s = Done r s' ->
  scanning (a_hci s') = enabled /\ engine_error r.
Proof.
  unfold leSetScanEnable, bind, modify_hci. intros H.
  pose proof (keeps_sendCommandWithParams fuel
                (opcode_of OGF_LE_CTL OCF_LE_SET_SCAN_ENABLE)
                [b2z enabled; b2z duplicates]
                (with_hci (set_scanning enabled) s)) as K.
  rewrite H in K. destruct K as [(Hs & _) Hr]. by split.
Qed.

Lemma C10_witness :
  scanning (a_hci scan_enable_ok_after) = true /\ engine_error None.
Proof.
  apply (C10_leSetScanEnable_sets_scanning 12 true false scan_enable_ok
           scan_enable_ok_after None).
  vm_compute. reflexivity.
Defined.

(** The same call when the write fails and when no answer arrives: it
    returns the error and leaves the flag set. *)
Lemma leSetScanEnable_write_error :
  let s := mkSt (mkUART [] [] (fun _ => true)) seconds_clock newHCI false in
  exists s', leSetScanEnable 1 true false s = Done (Some ErrUART) s'
             /\ scanning (a_hci s') = true.
Proof. eexists. split; [vm_compute; reflexivity | reflexivity]. Qed.

Lemma leSetScanEnable_timeout (fuel : nat) :
  exists s', leSetScanEnable (6 + fuel) true false (boot [])
             = Done (Some ErrHCITimeout) s'
             /\ scanning (a_hci s') = true.
Proof. eexists. split; [vm_compute; reflexivity | reflexivity]. Qed.

(** ** C8 *)

(** The default case of the switch in [poll]: a first byte that is
    neither the ACL-data tag nor the event tag is stored, the count goes
    back to zero and the loop goes on. *)
Lemma poll_loop_default
    (fuel : nat) (s : St) (b : Z) (rest : list (option Z)) :
  rx (uart s) = Some b :: rest ->
  length (buf (a_hci s)) = 256%nat ->
  u8 b <> HCI_ACLDATA_PKT -> u8 b <> HCI_EVENT_PKT ->
  poll_loop (S fuel) 0 s
  = poll_loop fuel 0
      (with_hci (set_buf (<[0%nat := u8 b]> (buf (a_hci s))))
                (with_uart (fun u => mkUART rest (tx u) (wfail u)) s)).
Proof.
  intros Hrx Hlen Hacl Hevt.
  simpl. unfold bind at 1. unfold uart_next. rewrite Hrx. simpl.
  unfold bind at 1. unfold buf_store. simpl. unfold len. rewrite Hlen.
  simpl. unfold bind at 1. unfold buf_load. simpl.
  rewrite list_lookup_insert_eq by lia. simpl.
  apply Z.eqb_neq in Hacl, Hevt. rewrite Hacl, Hevt. reflexivity.
Qed.



(** The command tag 0x01, which is not expected inbound, takes the same
    path. *)
Lemma command_tag_resyncs
    (fuel : nat) (s : St) (rest : list (option Z)) :
  rx (uart s) = Some HCI_COMMAND_PKT :: rest ->
  length (buf (a_hci s)) = 256%nat ->
  poll_loop (S fuel) 0 s
  = poll_loop fuel 0
      (with_hci (set_buf (<[0%nat := HCI_COMMAND_PKT]> (buf (a_hci s))))
                (with_uart (fun u => mkUART rest (tx u) (wfail u)) s)).
Proof.
  intros Hrx Hlen. by apply (poll_loop_default fuel s HCI_COMMAND_PKT rest).
Qed.

(** ** C1 *)

(** An iteration of the loop of [Connect] that finds nothing to read and
    no connection either runs out of fuel inside [poll] or ends normally,
    before and after the five seconds alike: the [break] of the timeout
    test leaves the [switch], and the [for] goes on. *)
Lemma connect_body_idle (fuel : nat) (start : Z) (s : St) :
  rx (uart s) = [] ->
  connected (connectData (a_hci s)) = false ->
  connect_body fuel start s = OutOfFuel
  \/ exists s', connect_body fuel start s = Done Normal s'
                /\ rx (uart s') = []
                /\ connected (connectData (a_hci s')) = false.
Proof.
  intros Hrx Hc. unfold connect_body, poll.
  destruct fuel as [|fuel]; [by left|right].
  simpl. unfold bind at 1. unfold bind at 1. unfold uart_next.
  rewrite Hrx. simpl. unfold switch_, bind, gets. rewrite Hc. simpl.
  destruct (_ >? 5); eexists; (split; [reflexivity|by split]).
Qed.

Lemma connect_loop_diverges (n fuel : nat) (start : Z) (s : St) :
  rx (uart s) = [] ->
  connected (connectData (a_hci s)) = false ->
  for_ever n (connect_body fuel start) s = OutOfFuel.
Proof.
  revert s. induction n as [|n IH]; intros s Hrx Hc; [done|].
  simpl. unfold bind.
  destruct (connect_body_idle fuel start s Hrx Hc) as [-> | (s' & -> & ? & ?)];
    [done|]. by apply IH.
Qed.

(** The loop of [Connect] is never left by [break]: whatever it returns
    comes from a [return] in its body. *)
Lemma connect_body_no_break (fuel : nat) (start : Z) (s s' : St) c :
  connect_body fuel start s = Done c s' -> c <> Break.
Proof.
  unfold connect_body, bind. destruct (poll fuel s) as [[e|] s1| |]; try done.
  - intros [= <- _]. done.
  - unfold switch_, bind, gets. simpl.
    destruct (connected _); simpl; [by intros [= <- _]|].
    destruct (_ >? 5); simpl; by intros [= <- _].
Qed.

Lemma connect_loop_returns (n fuel : nat) (start : Z) (s s' : St) r :
  for_ever n (connect_body fuel start) s = Done r s' -> r <> None.
Proof.
  revert s. induction n as [|n IH]; intros s; [done|].
  simpl. unfold bind at 1.
  destruct (connect_body fuel start s) as [c s1| |] eqn:E; try done.
  apply connect_body_no_break in E.
  destruct c; try done; try apply IH. by intros [= <- _].
Qed.

Lemma leCreateConn_acknowledged (fuel : nat) :
  leCreateConn (12 + fuel) 0x0060 0x0030 0x00 (addr_typ peer)
    (makeNINAAddress (MAC peer))
    0x00 0x0006 0x000c 0x0000 0x00c8 0x0004 0x0006 connect_silent
  = Done None connect_silent_created.
Proof. vm_compute. reflexivity. Qed.

Lemma Connect_silent_diverges (fuel : nat) :
  Connect (12 + fuel) peer connect_silent = OutOfFuel.
Proof.
  unfold Connect. unfold bind at 1.
  rewrite (leCreateConn_acknowledged fuel).
  unfold bind at 1. unfold now at 1. unfold bind at 1.
  rewrite connect_loop_diverges; reflexivity.
Qed.

(** C1 (what the code does).  On this machine the slot never reports a
    connection and [poll] always returns [nil], and the clock passes the
    five seconds after six iterations; yet for every amount of fuel the
    model of [Connect] is still inside its loop when the fuel ends: it
    neither sends the cancel command nor returns [ErrConnect]. *)
Theorem C1_Connect_never_times_out (fuel : nat) :
  Connect fuel peer connect_silent = OutOfFuel.
Proof.
  do 12 (destruct fuel as [|fuel]; [vm_compute; reflexivity|]).
  apply (Connect_silent_diverges fuel).
Qed.

(** Nine seconds after the command the timeout test of the loop holds,
    and the iteration still ends normally. *)
Lemma connect_timeout_test_fires :
  let s := mkSt (uart connect_silent_created)
                (mkClock (clock seconds_clock) 9)
                (a_hci connect_silent_created) false in
  (Z.quot (i64 (clock seconds_clock 9 - 2 * Second)) Second >? 5) = true
  /\ connect_body 1 (2 * Second) s
     = Done Normal (mkSt (uart s) (mkClock (clock seconds_clock) 10)
                         (a_hci s) false).
Proof. split; vm_compute; reflexivity. Qed.

(** ** C2 *)

(** C2 (what the code does).  [poll] hands the decoder the slice
    [h.buf[1:6]] of a command-complete event with three parameter bytes,
    and [handleEventData] reads [buf[5]] of this slice of length 5: the
    run-time panic "index out of range [5] with length 5", not an error
    value.  An event with no parameter at all is handed over as
    [h.buf[1:4]] and panics at [buf[3]].  [sendCommandWithParams] with
    253 parameter bytes panics at [h.buf[:257]]. *)
Theorem C2_short_event_panics (fuel : nat) :
  poll (6 + fuel) (boot (stream nop_command_complete))
  = Panicked (IndexOutOfRange 5 5)
  /\ poll (4 + fuel) (boot (stream [0x04; 0x0e; 0x00; 0x00]))
     = Panicked (IndexOutOfRange 3 3)
  /\ sendCommandWithParams (1 + fuel) (opcode_of OGF_HOST_CTL OCF_RESET)
       (zeros 253) (boot [])
     = Panicked (SliceBoundsOutOfRange 0 257 256).
Proof. repeat split; (vm_compute; reflexivity). Qed.

(** The part of C2 that holds: the running count of [poll] is a byte, so
    the store [h.buf[i] = data] stays inside the 256-byte buffer. *)
Lemma poll_store_in_bounds (i v : Z) (s : St) :
  length (buf (a_hci s)) = 256%nat ->
  exists s', buf_store (u8 i) v s = Done tt s'
             /\ length (buf (a_hci s')) = 256%nat.
Proof.
  intros Hlen. unfold buf_store, len. rewrite Hlen.
  assert (0 <= u8 i < 256) as [H1 H2] by (unfold u8; apply Z.mod_pos_bound; lia).
  apply Z.leb_le in H1. apply Z.ltb_lt in H2.
  change (Z.of_nat 256) with 256. rewrite H1, H2. simpl. eexists. split; [reflexivity|].
  simpl. by rewrite length_insert.
Qed.

(** ** C5 *)

(** The high length byte never reaches the length test of [poll]:
    [h.buf[4] << 8] is a [byte] expression and is zero. *)
Lemma acl_full_length_low_byte (b3 b4 : Z) :
  acl_full_length (u8 b3) (u8 b4) = u8 (HCIACLHeaderLen + u8 b3).
Proof.
  unfold acl_full_length. f_equal. f_equal.
  replace (u8 (Z.shiftl (u8 b4) 8)) with 0; [apply Z.lor_0_r|].
  unfold u8. rewrite Z.shiftl_mul_pow2 by lia.
  change (2 ^ 8) with 256. by rewrite Z.mod_mul.
Qed.

Lemma legacy_acl_full_length_low_byte (b3 b4 : Z) :
  Legacy.acl_full_length (u8 b3) (u8 b4) = u8 (HCIACLHeaderLen + u8 b3).
Proof.
  unfold Legacy.acl_full_length.
  replace (u8 (Z.shiftl (u8 b4) 8)) with 0.
  - rewrite Z.add_0_r. unfold u8. by rewrite Z.mod_mod.
  - unfold u8. rewrite Z.shiftl_mul_pow2 by lia.
    change (2 ^ 8) with 256. by rewrite Z.mod_mul.
Qed.

(** C5 (what the code does).  For all header bytes the length the
    assembler waits for is 5 plus the low length byte, modulo 256; an
    ACL packet that declares 0x0101 = 257 payload bytes is handed to
    [handleACLData] after its sixth byte, and the bytes that follow are
    left in the transport for the next frame. *)
Theorem C5_acl_length_ignores_high_byte (b3 b4 : Z) (fuel : nat) :
  acl_full_length (u8 b3) (u8 b4) = u8 (HCIACLHeaderLen + u8 b3)
  /\ acl_full_length 0x01 0x01 = 6
  /\ exists s',
       poll (6 + fuel)
            (boot (stream [0x02; 0x40; 0x00; 0x01; 0x01; 0xaa; 0xbb; 0xcc]))
       = Done None s'
       /\ rx (uart s') = stream [0xbb; 0xcc].
Proof.
  split; [apply acl_full_length_low_byte|]. split; [reflexivity|].
  eexists. split; [(vm_compute; reflexivity) | reflexivity].
Qed.

(** ** C6 *)

(** C6 (what the code does).  (1) An event that declares no parameter is
    complete after 3 bytes, but [poll] needs [i > HCIEvtHeaderLen]: the
    unknown-event frame [04 10 00] is not decoded when its third byte
    arrives, only when a fourth byte does, which is swallowed.  (2) The
    running count is a local of [poll]: the frame [04 10 01 00] is
    decoded when it arrives in one piece and is lost when the transport
    is empty for a moment after its second byte.  (3) The length test is
    done on bytes: an event that declares 253 parameter bytes is decoded
    after its fourth byte. *)
Theorem C6_frame_emission (fuel : nat) :
  (exists s', poll (4 + fuel) (boot (stream [0x04; 0x10; 0x00])) = Done None s'
              /\ rx (uart s') = [])
  /\ (exists s', poll (4 + fuel) (boot (stream [0x04; 0x10; 0x00; 0x04]))
                 = Done (Some ErrHCIUnknownEvent) s'
                 /\ rx (uart s') = [])
  /\ (exists s', poll (4 + fuel) (boot (stream [0x04; 0x10; 0x01; 0x00]))
                 = Done (Some ErrHCIUnknownEvent) s')
  /\ (poll (4 + fuel) split_frame = Done None split_frame_first_poll
      /\ rx (uart split_frame_first_poll) = stream [0x01; 0x00]
      /\ exists s2, poll (4 + fuel) split_frame_first_poll = Done None s2
                    /\ rx (uart s2) = [])
  /\ (exists s', poll (4 + fuel)
                   (boot (stream [0x04; 0x10; 0xfd; 0x00; 0x01; 0x02]))
                 = Done (Some ErrHCIUnknownEvent) s'
                 /\ rx (uart s') = stream [0x01; 0x02]).
Proof.
  split; [eexists; split; [(vm_compute; reflexivity) | reflexivity]|].
  split; [eexists; split; [(vm_compute; reflexivity) | reflexivity]|].
  split; [eexists; (vm_compute; reflexivity)|].
  split.
  { split; [(vm_compute; reflexivity)|]. split; [reflexivity|].
    eexists; split; [(vm_compute; reflexivity) | reflexivity]. }
  eexists; split; [(vm_compute; reflexivity) | reflexivity].
Qed.

(** ** The scan loop: C3, C4, C7 *)

Lemma reads_ret {A} (a : A) : reads (ret a).
Proof. by intros s a' s' [= _ <-]. Qed.

Lemma reads_throw {A} p : reads (@throw A p).
Proof. by intros s a s'. Qed.

Lemma reads_bind {A B} (m : M A) (k : A -> M B) :
  reads m -> (forall a, reads (k a)) -> reads (bind m k).
Proof.
  intros Hm Hk s b s'. unfold bind.
  destruct (m s) as [a s1| |] eqn:E; [|done..].
  intros H. apply Hk in H. apply Hm in E. congruence.
Qed.

Lemma reads_gets {A} (f : hci -> A) : reads (gets f).
Proof. by intros s a s' [= _ <-]. Qed.

Lemma reads_arr_get a i : reads (arr_get a i).
Proof.
  unfold arr_get. destruct (_ !! _); [|apply reads_throw].
  destruct (0 <=? i); [apply reads_ret | apply reads_throw].
Qed.

Lemma reads_arr_slice a lo hi : reads (arr_slice a lo hi).
Proof.
  unfold arr_slice. destruct (_ && _); [apply reads_ret | apply reads_throw].
Qed.

Lemma reads_eir_loop fuel i adf : reads (eir_loop fuel i adf).
Proof.
  revert i adf. induction fuel as [|fuel IH]; intros i adf; [done|].
  simpl. apply reads_bind; [apply reads_gets|]. intros n.
  destruct (i <? n); [|apply reads_ret].
  apply reads_bind; [apply reads_gets|]. intros d.
  apply reads_bind; [apply reads_arr_get|]. intros l.
  apply reads_bind; [apply reads_arr_get|]. intros t.
  destruct (l <? 1); [apply reads_ret|].
  apply reads_bind; [|intros; apply IH].
  destruct (_ || _); [|apply reads_ret].
  apply reads_bind; [apply reads_arr_slice | intros; apply reads_ret].
Qed.

(** The two are exclusive (take a callback that panics). *)
Lemma surfaces_not_drops (s : St) (r : ScanResult) :
  surfaces s r -> drops s -> False.
Proof.
  intros Hs Hd.
  specialize (Hs (fun _ => throw (IndexOutOfRange 0 0))).
  specialize (Hd (fun _ => throw (IndexOutOfRange 0 0))).
  rewrite Hs in Hd. discriminate.
Qed.

Lemma scan_dispatch_drops (s : St) :
  reported (advData (a_hci s)) = true ->
  typ (advData (a_hci s)) <> 0x04 ->
  drops s.
Proof.
  intros Hrep Ht cb. apply Z.eqb_neq in Ht.
  unfold scan_dispatch, switch_. unfold bind at 1. unfold bind at 1.
  unfold gets at 1. rewrite Hrep. unfold bind at 1. unfold gets at 1.
  rewrite Ht. reflexivity.
Qed.

Lemma scan_dispatch_drops_long (s : St) :
  reported (advData (a_hci s)) = true ->
  typ (advData (a_hci s)) = 0x04 ->
  eirLength (advData (a_hci s)) > 64 ->
  drops s.
Proof.
  intros Hrep Ht Hn cb. apply Z.eqb_eq in Ht. apply Z.gtb_gt in Hn.
  unfold scan_dispatch, switch_. unfold bind at 1. unfold bind at 1.
  unfold gets at 1. rewrite Hrep. unfold bind at 1. unfold gets at 1.
  rewrite Ht. unfold negb. unfold bind at 1. unfold gets at 1.
  rewrite Hn. reflexivity.
Qed.

Lemma scan_dispatch_surfaces (s : St) (adf : AdvertisementFields) :
  reported (advData (a_hci s)) = true ->
  typ (advData (a_hci s)) = 0x04 ->
  eirLength (advData (a_hci s)) <= 64 ->
  eir_loop 64 0 (mkFields EmptyString) s = Done adf s ->
  surfaces s (scan_result_of (advData (a_hci s)) adf).
Proof.
  intros Hrep Ht Hn Heir cb. apply Z.eqb_eq in Ht.
  assert ((eirLength (advData (a_hci s)) >? 64) = false) as Hn'.
  { destruct (_ >? 64) eqn:E; [|done]. apply Z.gtb_gt in E. lia. }
  unfold scan_dispatch, switch_. unfold bind at 1. unfold bind at 1.
  unfold gets at 1. rewrite Hrep. unfold bind at 1. unfold gets at 1.
  rewrite Ht. unfold negb. unfold bind at 1. unfold gets at 1.
  rewrite Hn'. unfold bind at 1. rewrite Heir.
  unfold scan_result_of, bind, gets.
  destruct (cb _ s) as [[] s1| |]; reflexivity.
Qed.

(** C3 (amended).  A populated report is surfaced only when its
    advertising type is 0x04: a report of any other type is cleared
    without running the callback; a report of type 0x04 whose EIR length
    is at most 64 and whose EIR fields are walked without a fault is
    handed to the callback once, and the slot is cleared afterwards. *)
Theorem C3_only_scan_responses_surfaced (s : St) :
  reported (advData (a_hci s)) = true ->
  (typ (advData (a_hci s)) <> 0x04 -> drops s)
  /\ (typ (advData (a_hci s)) = 0x04 ->
      eirLength (advData (a_hci s)) <= 64 ->
      forall adf s',
        eir_loop 64 0 (mkFields EmptyString) s = Done adf s' ->
        surfaces s (scan_result_of (advData (a_hci s)) adf)).
Proof.
  intros Hrep. split.
  - intros Ht. by apply scan_dispatch_drops.
  - intros Ht Hn adf s' Heir.
    pose proof (reads_eir_loop _ _ _ _ _ _ Heir) as ->.
    by apply scan_dispatch_surfaces.
Qed.

Lemma adv_ind_poll (fuel : nat) :
  poll (18 + fuel) (boot (stream adv_ind_report)) = Done None adv_ind_polled.
Proof. vm_compute. reflexivity. Qed.

Lemma C3_witness :
  drops adv_ind_polled
  /\ surfaces test_name_polled
       (scan_result_of (advData (a_hci test_name_polled))
                       (mkFields test_name_decoded)).
Proof.
  split.
  - apply (proj1 (C3_only_scan_responses_surfaced adv_ind_polled eq_refl)).
    vm_compute. discriminate.
  - apply (proj2 (C3_only_scan_responses_surfaced test_name_polled eq_refl)
                  eq_refl) with (s' := test_name_polled).
    + vm_compute. discriminate.
    + vm_compute. reflexivity.
Defined.

(** The claim as stated fails on this report: its type is 0x00 and it is
    not surfaced to the callback. *)
Lemma C3_counterexample :
  reported (advData (a_hci adv_ind_polled)) = true
  /\ typ (advData (a_hci adv_ind_polled)) = 0x00
  /\ ~ (exists r, surfaces adv_ind_polled r).
Proof.
  split; [reflexivity|]. split; [reflexivity|].
  intros [r Hr]. apply (surfaces_not_drops _ _ Hr).
  apply scan_dispatch_drops; [reflexivity | vm_compute; discriminate].
Qed.

(** ** C4 *)

(** One turn of the EIR loop on a local-name field: the name is made of
    the [l] bytes from [i+2] on, one more than the field holds. *)
Lemma eir_loop_name_field (fuel : nat) (i l t : Z) (adf : AdvertisementFields)
    (s : St) :
  let d := eirData (advData (a_hci s)) in
  i < eirLength (advData (a_hci s)) ->
  0 <= i ->
  d !! Z.to_nat i = Some l ->
  d !! Z.to_nat (i + 1) = Some t ->
  1 <= l ->
  t = 0x08 \/ t = 0x09 ->
  i + 2 + l <= len d ->
  eir_loop (S fuel) i adf s
  = eir_loop fuel (i + (l + 1))
      (mkFields (string_of_bytes
                   (take (Z.to_nat l) (drop (Z.to_nat (i + 2)) d)))) s.
Proof.
  intros d Hi Hi0 Hl Ht Hl1 Htag Hfit. subst d.
  simpl. unfold bind at 1. unfold gets at 1.
  apply Z.ltb_lt in Hi. rewrite Hi.
  unfold bind at 1. unfold gets at 1.
  unfold bind at 1. unfold arr_get at 1. rewrite Hl.
  assert ((0 <=? i) = true) as -> by (apply Z.leb_le; lia).
  unfold ret at 1.
  unfold bind at 1. unfold arr_get at 1. rewrite Ht.
  assert ((0 <=? i + 1) = true) as -> by (apply Z.leb_le; lia).
  unfold ret at 1.
  assert ((l <? 1) = false) as -> by (apply Z.ltb_ge; lia).
  assert (((t =? 8) || (t =? 9)) = true) as ->
    by (destruct Htag as [-> | ->]; reflexivity).
  unfold bind at 1. unfold bind at 1. unfold arr_slice.
  assert (((0 <=? i + 2) && (i + 2 <=? i + 2 + l)
           && (i + 2 + l <=? len (eirData (advData (a_hci s))))) = true) as ->.
  { rewrite !andb_true_iff, !Z.leb_le. lia. }
  unfold ret at 1. unfold ret at 1.
  replace (i + 2 + l - (i + 2)) with l by lia. reflexivity.
Qed.

Lemma length_string_of_bytes (l : list Z) :
  String.length (string_of_bytes l) = length l.
Proof. induction l as [|b l IH]; simpl; congruence. Qed.

(** C4 (what the code does).  For the field len=5, tag=0x09, "Test" the
    loop takes [eirData[2:7]], five bytes: the four letters and the byte
    behind the field, here the RSSI byte that [handleEventData] copied
    along.  The callback receives a five-character name that is not
    "Test". *)
Theorem C4_local_name_one_byte_too_long (fuel : nat) :
  poll (21 + fuel) (boot (stream test_name_report))
  = Done None test_name_polled
  /\ take 7 (eirData (advData (a_hci test_name_polled)))
     = [0x05; 0x09; 0x54; 0x65; 0x73; 0x74; 0xCE]
  /\ eir_loop 64 0 (mkFields EmptyString) test_name_polled
     = Done (mkFields test_name_decoded) test_name_polled
  /\ surfaces test_name_polled
       (mkScanResult (mkAddress [0xAA; 0xBB; 0xCC; 0xDD; 0xEE; 0xFF] 0)
                     (-50) (mkFields test_name_decoded))
  /\ String.length test_name_decoded = 5%nat
  /\ test_name_decoded <> "Test"%string.
Proof.
  split; [vm_compute; reflexivity|].
  split; [reflexivity|].
  split; [vm_compute; reflexivity|].
  split; [|split; [reflexivity | discriminate]].
  apply (scan_dispatch_surfaces test_name_polled (mkFields test_name_decoded));
    try reflexivity; vm_compute; discriminate.
Qed.

(** ** C7 *)

(** C7 (what the code does).  For an EIR length of exactly 64 the
    decoder neither clears the slot nor copies the payload (its test is
    [eirLength < 64]), and [Scan] discards only when [eirLength > 64]:
    the report stays in the slot and the callback is run on it, with the
    EIR bytes the slot held before. *)
Theorem C7_eir_length_64_is_surfaced (fuel : nat) :
  poll (79 + fuel) (boot (stream eir64_report)) = Done None eir64_polled
  /\ reported (advData (a_hci eir64_polled)) = true
  /\ eirLength (advData (a_hci eir64_polled)) = 64
  /\ eirData (advData (a_hci eir64_polled)) = zeros 64
  /\ surfaces eir64_polled
       (mkScanResult (mkAddress [0xAA; 0xBB; 0xCC; 0xDD; 0xEE; 0xFF] 0)
                     0 (mkFields EmptyString)).
Proof.
  split; [vm_compute; reflexivity|].
  do 3 (split; [reflexivity|]).
  apply (scan_dispatch_surfaces eir64_polled (mkFields EmptyString));
    try reflexivity; vm_compute; discriminate.
Qed.

(** The part of C7 that holds: a report in the slot with an EIR length
    above 64 is dropped by [Scan]. *)
Lemma eir_length_above_64_dropped (s : St) :
  reported (advData (a_hci s)) = true ->
  eirLength (advData (a_hci s)) > 64 ->
  drops s.
Proof.
  intros Hrep Hn.
  destruct (Z.eq_dec (typ (advData (a_hci s))) 0x04) as [Ht|Ht].
  - by apply scan_dispatch_drops_long.
  - by apply scan_dispatch_drops.
Qed.

(** ** The fuel of the EIR loop *)

(** Sixty-four units of fuel are enough for the EIR loop: a turn moves
    the cursor by at least two. *)
Lemma eir_loop_unfold (fuel : nat) (i : Z) (adf : AdvertisementFields) :
  eir_loop (S fuel) i adf
  = (let* n := gets (fun h => eirLength (advData h)) in
     if i <? n then
       let* d := gets (fun h => eirData (advData h)) in
       let* l := arr_get d i in
       let* t := arr_get d (i + 1) in
       if l <? 1 then ret adf
       else
         let* adf :=
           (if (t =? 0x08) || (t =? 0x09) then
              let* name := arr_slice d (i + 2) (i + 2 + l) in
              ret (mkFields (string_of_bytes name))
            else ret adf) in
         eir_loop fuel (i + (l + 1)) adf
     else ret adf).
Proof. reflexivity. Qed.

Lemma arr_get_cases (a : list Z) (i : Z) (s : St) :
  (exists v, arr_get a i s = Done v s) \/ (exists p, arr_get a i s = Panicked p).
Proof.
  unfold arr_get. destruct (_ !! _); [destruct (0 <=? i)|]; eauto.
Qed.

Lemma arr_slice_cases (a : list Z) (lo hi : Z) (s : St) :
  (exists v, arr_slice a lo hi s = Done v s)
  \/ (exists p, arr_slice a lo hi s = Panicked p).
Proof. unfold arr_slice. destruct (_ && _); eauto. Qed.

Lemma eir_loop_fuel (fuel : nat) (i : Z) (adf : AdvertisementFields) (s : St) :
  eirLength (advData (a_hci s)) - i <= 2 * Z.of_nat fuel ->
  eir_loop (S fuel) i adf s <> OutOfFuel.
Proof.
  revert i adf. induction fuel as [|fuel IH]; intros i adf H;
    rewrite eir_loop_unfold; unfold bind at 1; unfold gets at 1.
  - destruct (i <? _) eqn:E; [apply Z.ltb_lt in E; lia | done].
  - destruct (i <? _) eqn:E; [|done]. apply Z.ltb_lt in E.
    unfold bind at 1. unfold gets at 1. unfold bind at 1.
    destruct (arr_get_cases (eirData (advData (a_hci s))) i s)
      as [[l ->] | [p ->]]; [|done].
    unfold bind at 1.
    destruct (arr_get_cases (eirData (advData (a_hci s))) (i + 1) s)
      as [[t ->] | [p ->]]; [|done].
    destruct (l <? 1) eqn:El; [done|]. apply Z.ltb_ge in El.
    unfold bind at 1.
    destruct (_ || _).
    + unfold bind at 1.
      destruct (arr_slice_cases (eirData (advData (a_hci s))) (i + 2)
                  (i + 2 + l) s) as [[nm ->] | [p ->]]; [|done].
      unfold ret at 1. apply IH. lia.
    + unfold ret at 1. apply IH. lia.
Qed.

Lemma eir_loop_terminates (adf : AdvertisementFields) (s : St) :
  eirLength (advData (a_hci s)) <= 64 ->
  eir_loop 64 0 adf s <> OutOfFuel.
Proof. intros H. apply (eir_loop_fuel 63). lia. Qed.

(** ** C9 *)







(** The whole of [Connect] on that event: the command is acknowledged,
    the failed connection is reported, and [Connect] returns a device. *)
Lemma Connect_returns_device_on_failed_status (fuel : nat) :
  exists s',
    Connect (40 + fuel) peer
      (boot (stream ([0x04; 0x0f; 0x04; 0x00; 0x01; 0x0d; 0x20]
                     ++ conn_failed_event)))
    = Done (Some (mkDevice (mkAddress [0xAA; 0xBB; 0xCC; 0xDD; 0xEE; 0xFF] 0)
                           0x0040),
            None) s'
    /\ connected (connectData (a_hci s')) = false.
Proof. eexists. split; [vm_compute; reflexivity | reflexivity]. Qed.

(** * Further properties of the engine *)

(** ** Running the primitives *)

Lemma bind_eq {A B} (m : M A) (k : A -> M B) (s s' : St) (a : A) :
  m s = Done a s' -> bind m k s = k a s'.
Proof. unfold bind. by intros ->. Qed.

Lemma buf_store_eq (i v : Z) (s : St) :
  0 <= i < len (buf (a_hci s)) ->
  buf_store i v s
  = Done tt (with_hci (set_buf (<[Z.to_nat i := v]> (buf (a_hci s)))) s).
Proof.
  intros [H1 H2]. unfold buf_store.
  apply Z.leb_le in H1. apply Z.ltb_lt in H2. by rewrite H1, H2.
Qed.

Lemma buf_load_eq (i v : Z) (s : St) :
  0 <= i -> buf (a_hci s) !! Z.to_nat i = Some v -> buf_load i s = Done v s.
Proof.
  intros H1 H2. unfold buf_load. rewrite H2.
  apply Z.leb_le in H1. by rewrite H1.
Qed.

Lemma reslice_eq (b : slice) (lo hi : Z) (s : St) :
  0 <= lo <= hi -> hi <= s_cap b ->
  reslice b lo hi s
  = Done (mkSlice (s_off b + lo) (hi - lo) (s_cap b - lo)) s.
Proof.
  intros [H1 H2] H3. unfold reslice.
  apply Z.leb_le in H1, H2, H3. by rewrite H1, H2, H3.
Qed.

Lemma sl_get_eq (b : slice) (k v : Z) (s : St) :
  0 <= k < s_len b -> 0 <= s_off b ->
  buf (a_hci s) !! Z.to_nat (s_off b + k) = Some v ->
  sl_get b k s = Done v s.
Proof.
  intros [H1 H2] H3 H4. unfold sl_get.
  assert (((0 <=? k) && (k <? s_len b)) = true) as ->.
  { rewrite andb_true_iff, Z.leb_le, Z.ltb_lt. lia. }
  apply buf_load_eq; [lia | done].
Qed.

(** Run the first action of a sequence, given a tactic that evaluates it. *)
Ltac run tac :=
  etransitivity; [eapply bind_eq; tac | cbv beta].

(** ** The command packet *)

Lemma sendCommandWithParams_unfold (fuel : nat) (opcode : Z) (params : list Z) :
  sendCommandWithParams (S fuel) opcode params
  = (buf_store 0 HCI_COMMAND_PKT >>
     buf_store 1 (u8 (Z.land opcode 0xff)) >>
     buf_store 2 (u8 (Z.shiftr opcode 8)) >>
     buf_store 3 (u8 (len params)) >>
     let* hb := buf_slice in
     let* dst := reslice hb 4 (s_len hb) in
     copy_to_slice dst params >>
     let* pkt := reslice hb 0 (4 + len params) in
     let* werr := uart_write pkt in
     match werr with
     | Some e => ret (Some e)
     | None =>
         modify_hci (set_cmdCompleteOpcode 0xffff) >>
         modify_hci (set_cmdCompleteStatus 0xff) >>
         let* start := now in
         send_wait fuel opcode start
     end).
Proof. reflexivity. Qed.

(** What the four stores and the copy leave in a 256-byte buffer. *)
Lemma command_buffer (opcode : Z) (params b : list Z) :
  length b = 256%nat -> (length params <= 252)%nat ->
  let b4 := <[3%nat := u8 (len params)]>
              (<[2%nat := u8 (Z.shiftr opcode 8)]>
                 (<[1%nat := u8 (Z.land opcode 0xff)]>
                    (<[0%nat := HCI_COMMAND_PKT]> b))) in
  take 4 b4 ++ copy_list (take 252 (drop 4 b4)) params
    ++ drop (4 + length (take 252 (drop 4 b4))) b4
  = loaded (command_packet opcode params) b.
Proof.
  intros Hb Hp.
  destruct b as [|x0 [|x1 [|x2 [|x3 b']]]]; try (simpl in Hb; lia).
  assert (length b' = 252%nat) as Hb' by (simpl in Hb; lia).
  cbv zeta. cbn [list_insert insert].
  change (take 4 (?a :: ?b :: ?c :: ?d :: b')) with [a; b; c; d].
  change (drop 4 (?a :: ?b :: ?c :: ?d :: b')) with b'.
  rewrite (take_ge b') by lia.
  unfold copy_list, loaded, command_packet. rewrite Hb'.
  rewrite (take_ge params) by lia.
  rewrite (drop_ge _ (4 + 252)) by (simpl; lia).
  rewrite app_nil_r.
  change (length ([?a; ?b; ?c; ?d] ++ params)) with (4 + length params)%nat.
  change (drop (4 + length params) (x0 :: x1 :: x2 :: x3 :: b'))
    with (drop (length params) b').
  by rewrite <- app_assoc.
Qed.

(** Bring a state built by field updates back to constructor form. *)
Ltac norm :=
  unfold with_hci, with_uart, with_a_scanning, set_buf, set_cmdCompleteOpcode,
    set_cmdCompleteStatus, set_cmdResponse, set_scanning, set_address,
    with_advData, with_connectData;
  cbn [a_hci uart time a_scanning buf address
       cmdCompleteOpcode cmdCompleteStatus cmdResponse scanning advData
       connectData rx tx wfail clock ticks s_off s_len s_cap].

Ltac buf_len Hlen :=
  norm; unfold len; rewrite ?length_insert, ?Hlen; lia.

Ltac runn tac := run tac; norm.

Lemma take_loaded (pre b : list Z) : take (length pre) (loaded pre b) = pre.
Proof. unfold loaded. apply take_app_length. Qed.

Lemma length_loaded (pre b : list Z) :
  (length pre <= length b)%nat -> length (loaded pre b) = length b.
Proof. intros H. unfold loaded. rewrite length_app, length_drop. lia. Qed.

Lemma send_prelude (fuel : nat) (opcode : Z) (params : list Z) (s : St) :
  length (buf (a_hci s)) = 256%nat ->
  (length params <= 252)%nat ->
  sendCommandWithParams (S fuel) opcode params s
  = if wfail (uart s) (length (tx (uart s)))
    then Done (Some ErrUART) (unsent_state opcode params s)
    else send_wait fuel opcode (clock (time s) (ticks (time s)))
                   (sent_state opcode params s).
Proof.
  destruct s as [[r tl wf] [ck tk] [b ad op0 st0 cr sc av cd] asc].
  norm. intros Hlen Hp. rewrite sendCommandWithParams_unfold.
  runn ltac:(apply buf_store_eq; buf_len Hlen).
  runn ltac:(apply buf_store_eq; buf_len Hlen).
  runn ltac:(apply buf_store_eq; buf_len Hlen).
  runn ltac:(apply buf_store_eq; buf_len Hlen).
  runn ltac:(reflexivity).
  runn ltac:(apply reslice_eq; buf_len Hlen).
  runn ltac:(reflexivity).
  runn ltac:(apply reslice_eq; buf_len Hlen).
  assert (len (<[Z.to_nat 3:=u8 (len params)]>
                 (<[Z.to_nat 2:=u8 (Z.shiftr opcode 8)]>
                    (<[Z.to_nat 1:=u8 (Z.land opcode 255)]>
                       (<[Z.to_nat 0:=HCI_COMMAND_PKT]> b)))) = 256) as ->.
  { unfold len. by rewrite !length_insert, Hlen. }
  change (Z.to_nat (0 + 4)) with 4%nat.
  change (Z.to_nat (256 - 4)) with 252%nat.
  change (Z.to_nat 3) with 3%nat. change (Z.to_nat 2) with 2%nat.
  change (Z.to_nat 1) with 1%nat. change (Z.to_nat 0) with 0%nat.
  pose proof (command_buffer opcode params b Hlen Hp) as Hcb.
  cbv zeta in Hcb. rewrite Hcb. clear Hcb.
  unfold uart_write, sl_bytes. unfold bind at 1. unfold bind at 1. norm.
  change (Z.to_nat (0 + 0)) with 0%nat. rewrite drop_0.
  replace (Z.to_nat (4 + len params - 0))
    with (length (command_packet opcode params))
    by (unfold command_packet, len; rewrite length_app; simpl; lia).
  rewrite take_loaded.
  destruct (wf (length tl)); reflexivity.
Qed.

(** ** The wait loop on a silent transport *)

Lemma send_wait_unfold (fuel : nat) (opcode start : Z) :
  send_wait (S fuel) opcode start
  = (let* done := gets cmdCompleteOpcode in
     if done =? opcode then ret None
     else
       let* err := poll_loop fuel 0 in
       match err with
       | Some e => ret (Some e)
       | None =>
           let* t := now in
           if Z.quot (i64 (t - start)) Second >? 3
           then ret (Some ErrHCITimeout)
           else send_wait fuel opcode start
       end).
Proof. reflexivity. Qed.

Lemma poll_loop_unfold (fuel : nat) (i : Z) :
  poll_loop (S fuel) i
  = (let* rd := uart_next in
     match rd with
     | None => ret None
     | Some data =>
         buf_store i data >>
         let i := u8 (i + 1) in
         let* b0 := buf_load 0 in
         if b0 =? HCI_ACLDATA_PKT then
           if i >? HCIACLHeaderLen then
             let* b3 := buf_load 3 in
             let* b4 := buf_load 4 in
             if i >=? acl_full_length b3 b4 then
               let* hb := buf_slice in
               let* pkt := reslice hb 1 i in
               handleACLData pkt
             else sleep 10 >> poll_loop fuel i
           else sleep 10 >> poll_loop fuel i
         else if b0 =? HCI_EVENT_PKT then
           if i >? HCIEvtHeaderLen then
             let* b2 := buf_load 2 in
             if i >=? evt_full_length b2 then
               let* hb := buf_slice in
               let* pkt := reslice hb 1 i in
               handleEventData
                 (leSetAdvertiseEnable_with (sendCommandWithParams fuel))
                 pkt
             else sleep 10 >> poll_loop fuel i
           else sleep 10 >> poll_loop fuel i
         else
           let i := 0 in
           sleep 10 >> poll_loop fuel i
     end).
Proof. reflexivity. Qed.

(** With nothing buffered, [poll] returns at once and changes nothing. *)
Lemma poll_loop_idle (fuel : nat) (i : Z) (s : St) :
  rx (uart s) = [] -> poll_loop (S fuel) i s = Done None s.
Proof.
  intros Hrx. rewrite poll_loop_unfold. unfold bind, uart_next.
  by rewrite Hrx.
Qed.

Lemma tick_tick (n m : nat) (s : St) : tick n (tick m s) = tick (n + m) s.
Proof. unfold tick. simpl. do 2 f_equal. lia. Qed.

Lemma send_wait_silent (d : nat) :
  forall (fuel : nat) (opcode start : Z) (s : St),
  rx (uart s) = [] ->
  cmdCompleteOpcode (a_hci s) <> opcode ->
  (forall k, (k < d)%nat -> elapsed s start (k + ticks (time s)) <= 3) ->
  elapsed s start (d + ticks (time s)) > 3 ->
  send_wait (d + 2 + fuel) opcode start s
  = Done (Some ErrHCITimeout) (tick (S d) s).
Proof.
  induction d as [|d IH]; intros fuel opcode start s Hrx Hop Hbefore Hafter.
  - change (0 + 2 + fuel)%nat with (S (S fuel)).
    rewrite send_wait_unfold. unfold bind at 1. unfold gets at 1.
    apply Z.eqb_neq in Hop. rewrite Hop.
    unfold bind at 1. rewrite poll_loop_idle by done.
    unfold bind at 1. unfold now at 1.
    unfold elapsed in Hafter. simpl in Hafter.
    apply Z.gtb_gt in Hafter. rewrite Hafter. reflexivity.
  - change (S d + 2 + fuel)%nat with (S (d + 2 + fuel)).
    rewrite send_wait_unfold. unfold bind at 1. unfold gets at 1.
    pose proof Hop as Hop'. apply Z.eqb_neq in Hop'. rewrite Hop'.
    unfold bind at 1.
    replace (d + 2 + fuel)%nat with (S (d + 1 + fuel)) at 1 by lia.
    rewrite poll_loop_idle by done.
    unfold bind at 1. unfold now at 1.
    assert ((Z.quot (i64 (clock (time s) (ticks (time s)) - start)) Second >? 3)
            = false) as ->.
    { specialize (Hbefore 0%nat ltac:(lia)). unfold elapsed in Hbefore.
      simpl in Hbefore. destruct (_ >? 3) eqn:E; [|done].
      apply Z.gtb_gt in E. lia. }
    change (send_wait (d + 2 + fuel) opcode start (tick 1 s)
            = Done (Some ErrHCITimeout) (tick (S (S d)) s)).
    rewrite (IH fuel opcode start (tick 1 s)); try done.
    + by rewrite tick_tick, Nat.add_1_r.
    + intros k Hk. specialize (Hbefore (S k) ltac:(lia)).
      unfold elapsed, tick in *. simpl in *.
      by replace (k + S (ticks (time s)))%nat with (S (k + ticks (time s)))
        by lia.
    + unfold elapsed, tick in *. simpl in *.
      by replace (d + S (ticks (time s)))%nat with (S (d + ticks (time s)))
        by lia.
Qed.

(** The wait loop does not poll when the completion state already names
    the opcode. *)
Lemma send_wait_done (fuel : nat) (opcode start : Z) (s : St) :
  cmdCompleteOpcode (a_hci s) = opcode ->
  send_wait (S fuel) opcode start s = Done None s.
Proof.
  intros H. rewrite send_wait_unfold. unfold bind, gets.
  by rewrite H, Z.eqb_refl.
Qed.

Lemma sendCommandWithParams_silent (d fuel : nat) (opcode : Z)
    (params : list Z) (s : St) :
  length (buf (a_hci s)) = 256%nat ->
  (length params <= 252)%nat ->
  wfail (uart s) (length (tx (uart s))) = false ->
  rx (uart s) = [] ->
  opcode <> 0xffff ->
  (forall k, (k < d)%nat ->
     elapsed s (clock (time s) (ticks (time s))) (S k + ticks (time s)) <= 3) ->
  elapsed s (clock (time s) (ticks (time s))) (S d + ticks (time s)) > 3 ->
  sendCommandWithParams (d + 3 + fuel) opcode params s
  = Done (Some ErrHCITimeout) (tick (S d) (sent_state opcode params s)).
Proof.
  intros Hlen Hpar Hw Hrx Hop Hbefore Hafter.
  replace (d + 3 + fuel)%nat with (S (d + 2 + fuel)) by lia.
  rewrite send_prelude by done. rewrite Hw.
  apply send_wait_silent.
  - done.
  - simpl. congruence.
  - intros k Hk. specialize (Hbefore k Hk).
    unfold elapsed, sent_state in *. simpl in *.
    by replace (k + S (ticks (time s)))%nat with (S (k + ticks (time s)))
      by lia.
  - unfold elapsed, sent_state in *. simpl in *.
    by replace (d + S (ticks (time s)))%nat with (S (d + ticks (time s)))
      by lia.
Qed.

(** ** Assembling a frame *)

Lemma lookup_loaded (pre b : list Z) (k : nat) :
  (k < length pre)%nat -> loaded pre b !! k = pre !! k.
Proof. intros H. unfold loaded. by rewrite lookup_app_l. Qed.

Lemma insert_loaded (pre b : list Z) (x : Z) :
  (length pre < length b)%nat ->
  <[length pre := x]> (loaded pre b) = loaded (pre ++ [x]) b.
Proof.
  intros H. unfold loaded.
  destruct (lookup_lt_is_Some_2 b (length pre) H) as [y Hy].
  rewrite insert_app_r_alt, Nat.sub_diag by lia.
  rewrite (drop_S _ _ _ Hy). simpl.
  rewrite length_app, <- app_assoc. simpl.
  by rewrite Nat.add_1_r.
Qed.

Lemma loaded_nil (b : list Z) : loaded [] b = b.
Proof. reflexivity. Qed.

Lemma u8_byte (b : Z) : is_byte b -> u8 b = b.
Proof. unfold is_byte, u8. intros H. by rewrite Z.mod_small. Qed.

Lemma prefix_lookup (pre todo : list Z) (k : nat) :
  (k < length pre)%nat -> (pre ++ todo) !! k = pre !! k.
Proof. intros H. by rewrite lookup_app_l. Qed.

Lemma received_step (b b' : list Z) (r r' : list (option Z)) (s : St) :
  received b r
    (with_hci (set_buf b') (with_uart (fun u => mkUART r' (tx u) (wfail u)) s))
  = received b r s.
Proof. reflexivity. Qed.

Lemma poll_loop_event_frame (evt : Z) (params B : list Z)
    (rest : list (option Z)) (fuel : nat) :
  is_byte evt -> Forall is_byte params ->
  (1 <= length params <= 252)%nat -> length B = 256%nat ->
  forall (todo pre : list Z) (s : St),
  pre ++ todo = event_frame evt params ->
  todo <> [] ->
  rx (uart s) = stream todo ++ rest ->
  buf (a_hci s) = loaded pre B ->
  poll_loop (length todo + fuel) (len pre) s
  = handleEventData (leSetAdvertiseEnable_with (sendCommandWithParams fuel))
      (mkSlice 1 (len (event_frame evt params) - 1) 255)
      (received (loaded (event_frame evt params) B) rest s).
Proof.
  intros Hevt Hpar Hplen HB.
  assert (Forall is_byte (event_frame evt params)) as Hbytes.
  { unfold event_frame. repeat apply Forall_cons_2; try done.
    unfold is_byte, len. lia. }
  assert (length (event_frame evt params) = (3 + length params)%nat) as Hflen
    by reflexivity.
  induction todo as [|x todo IH]; intros pre s Hsplit Hne Hrx Hbuf; [done|].
  assert (is_byte x) as Hx.
  { rewrite <- Hsplit in Hbytes. apply Forall_app in Hbytes as [_ Hb].
    by inversion Hb. }
  assert (length pre + S (length todo) = 3 + length params)%nat as Hlens.
  { rewrite <- Hflen, <- Hsplit, length_app. reflexivity. }
  assert ((pre ++ [x]) ++ todo = event_frame evt params) as Hsplit'
    by (by rewrite <- app_assoc).
  assert (forall k, (k < S (length pre))%nat ->
            loaded (pre ++ [x]) B !! k = event_frame evt params !! k) as Hget.
  { intros k Hk. rewrite lookup_loaded by (rewrite length_app; simpl; lia).
    rewrite <- Hsplit'. symmetry. apply prefix_lookup.
    rewrite length_app. simpl. lia. }
  change (length (x :: todo) + fuel)%nat with (S (length todo + fuel)).
  rewrite poll_loop_unfold.
  destruct s as [[r t w] tm [b ad co cs cr sc av cd] asc].
  simpl in Hrx, Hbuf. subst r b.
  run ltac:(reflexivity). norm.
  change (u8 <$> Some x) with (Some (u8 x)). cbv iota. rewrite (u8_byte x Hx).
  run ltac:(apply buf_store_eq; norm; unfold len;
            rewrite length_loaded by lia; lia).
  norm.
  replace (Z.to_nat (len pre)) with (length pre) by (unfold len; lia).
  rewrite insert_loaded by lia.
  assert (u8 (len pre + 1) = len (pre ++ [x])) as ->.
  { unfold len. rewrite length_app, Nat2Z.inj_add. simpl.
    apply u8_byte. unfold is_byte. lia. }
  run ltac:(apply (buf_load_eq 0 HCI_EVENT_PKT); [lia | norm; apply Hget; lia]).
  change (HCI_EVENT_PKT =? HCI_ACLDATA_PKT) with false.
  change (HCI_EVENT_PKT =? HCI_EVENT_PKT) with true. cbv iota.
  assert (len (pre ++ [x]) = Z.of_nat (S (length pre))) as Hi.
  { unfold len. rewrite length_app. simpl. lia. }
  set (s1 := mkSt _ _ _ _).
  assert (poll_loop (length todo + fuel) (len (pre ++ [x])) s1
          = handleEventData
              (leSetAdvertiseEnable_with (sendCommandWithParams fuel))
              (mkSlice 1 (len (event_frame evt params) - 1) 255)
              (received (loaded (event_frame evt params) B) rest
                        (mkSt (mkUART (stream (x :: todo) ++ rest) t w) tm
                              (mkHci (loaded pre B) ad co cs cr sc av cd) asc))
          \/ todo = []) as Hnext.
  { destruct todo as [|y todo']; [by right|left].
    apply (IH (pre ++ [x]) s1); done. }
  destruct (len (pre ++ [x]) >? HCIEvtHeaderLen) eqn:Hhdr.
  - apply Z.gtb_gt in Hhdr. rewrite Hi in Hhdr. unfold HCIEvtHeaderLen in Hhdr.
    run ltac:(apply (buf_load_eq 2 (len params));
              [lia | subst s1; norm; apply Hget; lia]).
    assert (evt_full_length (len params) = len (event_frame evt params)) as ->.
    { unfold evt_full_length, HCIEvtHeaderLen, len. rewrite Hflen.
      rewrite u8_byte; unfold is_byte; lia. }
    destruct (len (pre ++ [x]) >=? len (event_frame evt params)) eqn:Hfull.
    + assert (todo = []) as ->.
      { apply Z.geb_le in Hfull. rewrite Hi in Hfull. unfold len in Hfull.
        destruct todo; [done|]. rewrite Hflen in Hfull. simpl in Hlens. lia. }
      rewrite app_nil_r in Hsplit'.
      assert (len (loaded (pre ++ [x]) B) = 256) as HlenB.
      { unfold len. rewrite length_loaded, HB; [done|].
        rewrite Hsplit', Hflen, HB. lia. }
      run ltac:(reflexivity). subst s1. norm. rewrite HlenB.
      run ltac:(apply reslice_eq; norm; rewrite ?Hi; unfold len;
                rewrite ?Hflen; lia).
      norm. rewrite Hsplit'. reflexivity.
    + destruct Hnext as [Hnext| ->]; [exact Hnext|].
      rewrite Z.geb_leb in Hfull. apply Z.leb_gt in Hfull. rewrite Hi in Hfull.
      unfold len in Hfull. rewrite Hflen in Hfull. simpl in Hlens. lia.
  - destruct Hnext as [Hnext| ->]; [exact Hnext|].
    rewrite Z.gtb_ltb in Hhdr. apply Z.ltb_ge in Hhdr. rewrite Hi in Hhdr.
    unfold HCIEvtHeaderLen in Hhdr. simpl in Hlens. lia.
Qed.

Lemma poll_loop_acl_frame (h0 h1 b3 b4 : Z) (payload B : list Z)
    (rest : list (option Z)) (fuel : nat) :
  Forall is_byte (acl_frame h0 h1 b3 b4 payload) ->
  b3 <= 250 -> len payload = Z.max 1 b3 -> length B = 256%nat ->
  forall (todo pre : list Z) (s : St),
  pre ++ todo = acl_frame h0 h1 b3 b4 payload ->
  todo <> [] ->
  rx (uart s) = stream todo ++ rest ->
  buf (a_hci s) = loaded pre B ->
  poll_loop (length todo + fuel) (len pre) s
  = Done None (received (loaded (acl_frame h0 h1 b3 b4 payload) B) rest s).
Proof.
  intros Hbytes Hmax Hplen HB.
  assert (length (acl_frame h0 h1 b3 b4 payload) = (5 + length payload)%nat)
    as Hflen by reflexivity.
  assert (is_byte b3 /\ is_byte b4) as [Hb3 Hb4].
  { unfold acl_frame in Hbytes.
    do 3 apply Forall_cons_1 in Hbytes as [_ Hbytes].
    apply Forall_cons_1 in Hbytes as [? Hbytes].
    by apply Forall_cons_1 in Hbytes as [? _]. }
  unfold len in Hplen.
  induction todo as [|x todo IH]; intros pre s Hsplit Hne Hrx Hbuf; [done|].
  assert (is_byte x) as Hx.
  { rewrite <- Hsplit in Hbytes. apply Forall_app in Hbytes as [_ Hb].
    by inversion Hb. }
  assert (length pre + S (length todo) = 5 + length payload)%nat as Hlens.
  { rewrite <- Hflen, <- Hsplit, length_app. reflexivity. }
  assert ((pre ++ [x]) ++ todo = acl_frame h0 h1 b3 b4 payload) as Hsplit'
    by (by rewrite <- app_assoc).
  assert (forall k, (k < S (length pre))%nat ->
            loaded (pre ++ [x]) B !! k
            = acl_frame h0 h1 b3 b4 payload !! k) as Hget.
  { intros k Hk. rewrite lookup_loaded by (rewrite length_app; simpl; lia).
    rewrite <- Hsplit'. symmetry. apply prefix_lookup.
    rewrite length_app. simpl. lia. }
  change (length (x :: todo) + fuel)%nat with (S (length todo + fuel)).
  rewrite poll_loop_unfold.
  destruct s as [[r t w] tm [b ad co cs cr sc av cd] asc].
  simpl in Hrx, Hbuf. subst r b.
  run ltac:(reflexivity). norm.
  change (u8 <$> Some x) with (Some (u8 x)). cbv iota. rewrite (u8_byte x Hx).
  run ltac:(apply buf_store_eq; norm; unfold len;
            rewrite length_loaded by lia; lia).
  norm.
  replace (Z.to_nat (len pre)) with (length pre) by (unfold len; lia).
  rewrite insert_loaded by lia.
  assert (u8 (len pre + 1) = len (pre ++ [x])) as ->.
  { unfold len. rewrite length_app, Nat2Z.inj_add. simpl.
    apply u8_byte. unfold is_byte. lia. }
  run ltac:(apply (buf_load_eq 0 HCI_ACLDATA_PKT); [lia | norm; apply Hget; lia]).
  change (HCI_ACLDATA_PKT =? HCI_ACLDATA_PKT) with true. cbv iota.
  assert (len (pre ++ [x]) = Z.of_nat (S (length pre))) as Hi.
  { unfold len. rewrite length_app. simpl. lia. }
  set (s1 := mkSt _ _ _ _).
  assert (poll_loop (length todo + fuel) (len (pre ++ [x])) s1
          = Done None
              (received (loaded (acl_frame h0 h1 b3 b4 payload) B) rest
                        (mkSt (mkUART (stream (x :: todo) ++ rest) t w) tm
                              (mkHci (loaded pre B) ad co cs cr sc av cd) asc))
          \/ todo = []) as Hnext.
  { destruct todo as [|y todo']; [by right|left].
    apply (IH (pre ++ [x]) s1); done. }
  destruct (len (pre ++ [x]) >? HCIACLHeaderLen) eqn:Hhdr.
  - apply Z.gtb_gt in Hhdr. rewrite Hi in Hhdr. unfold HCIACLHeaderLen in Hhdr.
    run ltac:(apply (buf_load_eq 3 b3);
              [lia | subst s1; norm; apply Hget; lia]).
    run ltac:(apply (buf_load_eq 4 b4);
              [lia | subst s1; norm; apply Hget; lia]).
    assert (acl_full_length b3 b4 = 5 + b3) as ->.
    { rewrite <- (u8_byte b3 Hb3) at 1. rewrite <- (u8_byte b4 Hb4).
      rewrite acl_full_length_low_byte. rewrite (u8_byte b3 Hb3).
      apply u8_byte. unfold is_byte, HCIACLHeaderLen, is_byte in *. lia. }
    destruct (len (pre ++ [x]) >=? 5 + b3) eqn:Hfull.
    + assert (todo = []) as ->.
      { apply Z.geb_le in Hfull. rewrite Hi in Hfull.
        destruct todo; [done|]. simpl in Hlens. lia. }
      rewrite app_nil_r in Hsplit'.
      assert (len (loaded (pre ++ [x]) B) = 256) as HlenB.
      { unfold len. rewrite length_loaded, HB; [done|].
        rewrite Hsplit', Hflen, HB. lia. }
      run ltac:(reflexivity). subst s1. norm. rewrite HlenB.
      run ltac:(apply reslice_eq; norm; rewrite ?Hi; lia).
      norm. rewrite Hsplit'. reflexivity.
    + destruct Hnext as [Hnext| ->]; [exact Hnext|].
      rewrite Z.geb_leb in Hfull. apply Z.leb_gt in Hfull. rewrite Hi in Hfull.
      simpl in Hlens. lia.
  - destruct Hnext as [Hnext| ->]; [exact Hnext|].
    rewrite Z.gtb_ltb in Hhdr. apply Z.ltb_ge in Hhdr. rewrite Hi in Hhdr.
    unfold HCIACLHeaderLen in Hhdr. simpl in Hlens. lia.
Qed.

(** ** Decoding a frame *)

(** Read a byte of the frame through the slice that [poll] hands over. *)
Ltac frame_byte :=
  apply sl_get_eq;
  [ cbn [s_len]; unfold len; simpl length; lia
  | cbn [s_off]; lia
  | norm; cbn [s_off]; rewrite lookup_loaded by (simpl; lia); reflexivity ].

Lemma handleEventData_cmd_complete (adv : bool -> M (option error))
    (ncmd lo hi st : Z) (ret_params B : list Z) (rest : list (option Z))
    (s : St) :
  (length ret_params <= 248)%nat -> length B = 256%nat ->
  let params := ncmd :: lo :: hi :: st :: ret_params in
  handleEventData adv
    (mkSlice 1 (len (event_frame EVT_CMD_COMPLETE params) - 1) 255)
    (received (loaded (event_frame EVT_CMD_COMPLETE params) B) rest s)
  = Done None
      (completed (u16_of_bytes lo hi) st (mkSlice 2 (len params + 1) 254)
         (received (loaded (event_frame EVT_CMD_COMPLETE params) B) rest s)).
Proof.
  intros Hlen HB params.
  destruct s as [[r t w] tm [b ad co cs cr sc av cd] asc].
  unfold received, completed. norm. unfold handleEventData.
  run ltac:(frame_byte). run ltac:(frame_byte).
  change (EVT_CMD_COMPLETE =? EVT_DISCONN_COMPLETE) with false.
  change (EVT_CMD_COMPLETE =? EVT_ENCRYPTION_CHANGE) with false.
  change (EVT_CMD_COMPLETE =? EVT_CMD_COMPLETE) with true. cbv iota.
  run ltac:(frame_byte). run ltac:(frame_byte).
  run ltac:(reflexivity). norm.
  run ltac:(frame_byte).
  run ltac:(reflexivity). norm.
  assert ((len params >? 0) = true) as ->.
  { apply Z.gtb_gt. unfold len, params. simpl length. lia. }
  assert (u8 (len params + 2) = len params + 2) as ->.
  { apply u8_byte. unfold is_byte, len, params. simpl length. lia. }
  run ltac:(etransitivity;
            [eapply bind_eq; apply reslice_eq; cbn [s_cap];
             unfold len, params; simpl length; lia | reflexivity]).
  norm. unfold u16_of_bytes. repeat f_equal. cbn [s_off s_cap]. f_equal; lia.
Qed.

Lemma handleEventData_cmd_status (adv : bool -> M (option error))
    (st ncmd lo hi : Z) (tail B : list Z) (rest : list (option Z)) (s : St) :
  (length tail <= 248)%nat -> length B = 256%nat ->
  let params := st :: ncmd :: lo :: hi :: tail in
  handleEventData adv
    (mkSlice 1 (len (event_frame EVT_CMD_STATUS params) - 1) 255)
    (received (loaded (event_frame EVT_CMD_STATUS params) B) rest s)
  = Done None
      (completed (u16_of_bytes lo hi) st (mkSlice 1 0 255)
         (received (loaded (event_frame EVT_CMD_STATUS params) B) rest s)).
Proof.
  intros Hlen HB params.
  destruct s as [[r t w] tm [b ad co cs cr sc av cd] asc].
  unfold received, completed. norm. unfold handleEventData.
  run ltac:(frame_byte). run ltac:(frame_byte).
  change (EVT_CMD_STATUS =? EVT_DISCONN_COMPLETE) with false.
  change (EVT_CMD_STATUS =? EVT_ENCRYPTION_CHANGE) with false.
  change (EVT_CMD_STATUS =? EVT_CMD_COMPLETE) with false.
  change (EVT_CMD_STATUS =? EVT_CMD_STATUS) with true. cbv iota.
  run ltac:(frame_byte). run ltac:(reflexivity). norm.
  run ltac:(frame_byte). run ltac:(frame_byte).
  run ltac:(reflexivity). norm.
  run ltac:(apply reslice_eq; cbn [s_cap]; lia).
  reflexivity.
Qed.

(** The first two bytes of the slice are all the decoder reads of an
    event that is not a completion, a status or an LE meta event. *)
Lemma handleEventData_other (adv : bool -> M (option error))
    (evt : Z) (params B : list Z) (rest : list (option Z)) (s : St) :
  (1 <= length params)%nat ->
  evt <> EVT_CMD_COMPLETE -> evt <> EVT_CMD_STATUS ->
  evt <> EVT_LE_META_EVENT ->
  handleEventData adv
    (mkSlice 1 (len (event_frame evt params) - 1) 255)
    (received (loaded (event_frame evt params) B) rest s)
  = if evt =? EVT_DISCONN_COMPLETE then
      adv true (received (loaded (event_frame evt params) B) rest s)
    else
      Done (if evt =? EVT_UNKNOWN then Some ErrHCIUnknownEvent else None)
           (received (loaded (event_frame evt params) B) rest s).
Proof.
  intros Hlen H1 H2 H3.
  apply Z.eqb_neq in H1, H2, H3.
  destruct s as [[r t w] tm [b ad co cs cr sc av cd] asc].
  unfold received. norm. unfold handleEventData.
  run ltac:(frame_byte). run ltac:(frame_byte).
  rewrite H1, H2, H3.
  destruct (evt =? EVT_DISCONN_COMPLETE); [reflexivity|].
  destruct (Z.eqb_spec evt EVT_ENCRYPTION_CHANGE) as [->|_]; [reflexivity|].
  destruct (Z.eqb_spec evt EVT_NUM_COMP_PKTS) as [->|_]; [reflexivity|].
  by destruct (evt =? EVT_UNKNOWN).
Qed.

(** ** From the transport to the decoder *)

Lemma poll_event (evt : Z) (params : list Z) (rest : list (option Z))
    (fuel : nat) (s : St) :
  is_byte evt -> Forall is_byte params ->
  (1 <= length params <= 252)%nat ->
  length (buf (a_hci s)) = 256%nat ->
  rx (uart s) = stream (event_frame evt params) ++ rest ->
  poll (length (event_frame evt params) + fuel) s
  = handleEventData (leSetAdvertiseEnable fuel)
      (mkSlice 1 (len (event_frame evt params) - 1) 255)
      (received (loaded (event_frame evt params) (buf (a_hci s))) rest s).
Proof.
  intros Hevt Hpar Hlen Hbuf Hrx.
  apply (poll_loop_event_frame evt params (buf (a_hci s)) rest fuel
           Hevt Hpar Hlen Hbuf (event_frame evt params) [] s);
    done.
Qed.

(** The two opcode bytes of a command packet, read back the way the
    decoder reads them, give the opcode. *)
Lemma u16_of_opcode_bytes (opcode : Z) :
  0 <= opcode < 65536 ->
  u16_of_bytes (u8 (Z.land opcode 0xff)) (u8 (Z.shiftr opcode 8)) = opcode.
Proof.
  intros H. unfold u16_of_bytes, u8, u16.
  change 0xff with (Z.ones 8). rewrite Z.land_ones by lia.
  rewrite Z.shiftr_div_pow2, Z.shiftl_mul_pow2 by lia.
  change (2 ^ 8) with 256.
  rewrite (Z.mod_small (opcode mod 256)) by (apply Z.mod_pos_bound; lia).
  assert (0 <= opcode / 256 < 256) as Hq.
  { split; [apply Z.div_pos; lia | apply Z.div_lt_upper_bound; lia]. }
  rewrite (Z.mod_small (opcode / 256)) by lia.
  rewrite (Z.mod_small (opcode / 256 * 256)) by lia.
  rewrite <- Z.add_nocarry_lor.
  - rewrite (Z.div_mod opcode 256) at 3 by lia. lia.
  - apply Z.bits_inj'. intros n Hn. rewrite Z.land_spec, Z.bits_0.
    destruct (Z.lt_ge_cases n 8) as [Hlt | Hge].
    + replace (opcode / 256 * 256) with (Z.shiftl (opcode / 256) 8)
        by (rewrite Z.shiftl_mul_pow2 by lia; reflexivity).
      rewrite (Z.shiftl_spec_low _ _ _ Hlt). apply andb_false_r.
    + change 256 with (2 ^ 8) at 1.
      rewrite Z.mod_pow2_bits_high by lia. reflexivity.
Qed.

Lemma is_byte_u8 (z : Z) : is_byte (u8 z).
Proof. unfold is_byte, u8. apply Z.mod_pos_bound. lia. Qed.

Lemma sent_buffer (opcode : Z) (params : list Z) (s : St) :
  length (buf (a_hci s)) = 256%nat -> (length params <= 252)%nat ->
  length (buf (a_hci (sent_state opcode params s))) = 256%nat.
Proof.
  intros Hbuf Hpar.
  change (length (loaded (command_packet opcode params) (buf (a_hci s)))
          = 256%nat).
  rewrite length_loaded; [done|].
  unfold command_packet. rewrite length_app. simpl. lia.
Qed.

Lemma now_eq (s : St) :
  now s = Done (clock (time s) (ticks (time s))) (tick 1 s).
Proof. reflexivity. Qed.

(** One round of the wait loop in which the poll records the completion. *)
Lemma send_wait_completes (n : nat) (opcode start : Z) (s1 s2 : St) :
  cmdCompleteOpcode (a_hci s1) <> opcode ->
  poll (S n) s1 = Done None s2 ->
  cmdCompleteOpcode (a_hci s2) = opcode ->
  send_wait (S (S n)) opcode start s1
  = Done (if Z.quot (i64 (clock (time s2) (ticks (time s2)) - start)) Second
             >? 3
          then Some ErrHCITimeout else None)
         (tick 1 s2).
Proof.
  intros Hne Hpoll Hop. unfold poll in Hpoll.
  rewrite send_wait_unfold. unfold bind at 1. unfold gets at 1.
  apply Z.eqb_neq in Hne. rewrite Hne.
  unfold bind at 1. rewrite Hpoll.
  unfold bind at 1. rewrite now_eq.
  destruct (_ >? 3); [reflexivity|].
  apply send_wait_done. exact Hop.
Qed.

Lemma send_completes (fuel : nat) (opcode ncmd st : Z)
    (params ret_params : list Z) (rest : list (option Z)) (s : St) :
  let frame := event_frame EVT_CMD_COMPLETE
                 (ncmd :: u8 (Z.land opcode 0xff) :: u8 (Z.shiftr opcode 8)
                       :: st :: ret_params) in
  length (buf (a_hci s)) = 256%nat ->
  (length params <= 252)%nat ->
  wfail (uart s) (length (tx (uart s))) = false ->
  0 <= opcode < 0xffff ->
  is_byte ncmd -> is_byte st -> Forall is_byte ret_params ->
  (length ret_params <= 248)%nat ->
  rx (uart s) = stream frame ++ rest ->
  sendCommandWithParams (2 + length frame + fuel) opcode params s
  = Done (if elapsed s (clock (time s) (ticks (time s))) (S (ticks (time s)))
             >? 3
          then Some ErrHCITimeout else None)
         (tick 1
            (completed opcode st (mkSlice 2 (5 + len ret_params) 254)
               (received
                  (loaded frame
                     (loaded (command_packet opcode params) (buf (a_hci s))))
                  rest (sent_state opcode params s)))).
Proof.
  intros frame Hbuf Hpar Hw Hop Hncmd Hst Hret Hlen Hrx.
  assert (length frame = S (6 + length ret_params)) as Hflen by reflexivity.
  replace (2 + length frame + fuel)%nat
    with (S (S (S (6 + length ret_params + fuel)))) by lia.
  rewrite send_prelude by done. rewrite Hw.
  set (s2 := completed _ _ _ _).
  rewrite (send_wait_completes _ opcode _ _ s2).
  - reflexivity.
  - cbn [sent_state a_hci cmdCompleteOpcode]. lia.
  - subst s2. replace (S (6 + length ret_params + fuel)) with (length frame + fuel)%nat
      by lia.
    subst frame.
    rewrite (poll_event EVT_CMD_COMPLETE _ rest).
    + rewrite handleEventData_cmd_complete.
      * rewrite u16_of_opcode_bytes by lia. do 3 f_equal.
        unfold len. cbn [length]. lia.
      * exact Hlen.
      * apply sent_buffer; done.
    + unfold is_byte, EVT_CMD_COMPLETE. lia.
    + repeat apply Forall_cons_2; try done; apply is_byte_u8.
    + cbn [length]. lia.
    + apply sent_buffer; done.
    + exact Hrx.
  - reflexivity.
Qed.

(** ** Reading the address *)

Lemma copy_list_prefix (dst pre suf : list Z) :
  length dst = length pre -> copy_list dst (pre ++ suf) = pre.
Proof.
  intros H. unfold copy_list.
  rewrite H, take_app_length, drop_ge, app_nil_r; [done|].
  rewrite length_app. lia.
Qed.

Lemma readBdAddr_completed (fuel : nat) (ncmd st a0 : Z)
    (ret_params : list Z) (rest : list (option Z)) (s : St) :
  let frame := completion_of READ_BD_ADDR ncmd st (a0 :: ret_params) in
  length (buf (a_hci s)) = 256%nat ->
  length (address (a_hci s)) = 6%nat ->
  wfail (uart s) (length (tx (uart s))) = false ->
  is_byte ncmd -> is_byte st -> Forall is_byte (a0 :: ret_params) ->
  (length ret_params <= 247)%nat ->
  rx (uart s) = stream frame ++ rest ->
  elapsed s (clock (time s) (ticks (time s))) (S (ticks (time s))) <= 3 ->
  readBdAddr (2 + length frame + fuel) s
  = Done None
      (with_hci
         (set_address [5 + len ret_params; ncmd; 0x09; 0x10; st; a0])
         (tick 1
            (completed READ_BD_ADDR st
               (mkSlice 2 (6 + len ret_params) 254)
               (received
                  (loaded frame
                     (loaded (command_packet READ_BD_ADDR [])
                             (buf (a_hci s))))
                  rest (sent_state READ_BD_ADDR [] s))))).
Proof.
  intros frame Hbuf Haddr Hw Hncmd Hst Hret Hlen Hrx Hel.
  unfold readBdAddr, sendCommand.
  run ltac:(apply (send_completes fuel READ_BD_ADDR ncmd st []
                     (a0 :: ret_params) rest s Hbuf);
            [ cbn [length]; lia | exact Hw | vm_compute; split; congruence
            | exact Hncmd | exact Hst | exact Hret | cbn [length]; lia
            | exact Hrx ]).
  assert ((elapsed s (clock (time s) (ticks (time s))) (S (ticks (time s)))
           >? 3) = false) as ->.
  { rewrite Z.gtb_ltb. apply Z.ltb_ge. lia. }
  replace (5 + len (a0 :: ret_params)) with (6 + len ret_params)
    by (unfold len; cbn [length]; lia).
  fold frame.
  set (B := loaded (command_packet READ_BD_ADDR []) (buf (a_hci s))).
  set (s3 := tick 1 _).
  assert (cmdResponse (a_hci s3) = mkSlice 2 (6 + len ret_params) 254) as Hr
    by reflexivity.
  assert (address (a_hci s3) = address (a_hci s)) as Ha by reflexivity.
  assert (buf (a_hci s3) = loaded frame B) as Hb by reflexivity.
  run ltac:(reflexivity). rewrite Hr.
  run ltac:(apply reslice_eq; cbn [s_cap]; lia).
  cbn [s_off s_cap].
  unfold bind at 1. unfold sl_bytes at 1. cbn [s_len s_off]. rewrite Hb.
  unfold bind, modify_hci, ret, with_hci. cbv beta. rewrite Ha.
  f_equal. f_equal. f_equal.
  assert (take (Z.to_nat (7 - 0)) (drop (Z.to_nat (2 + 0)) (loaded frame B))
          = [len (ncmd :: u8 (Z.land READ_BD_ADDR 0xff)
                       :: u8 (Z.shiftr READ_BD_ADDR 8) :: st
                       :: a0 :: ret_params);
             ncmd; 0x09; 0x10; st; a0]
            ++ take 1 (ret_params
                         ++ drop (length frame) B)) as -> by reflexivity.
  rewrite copy_list_prefix by (rewrite Haddr; reflexivity).
  f_equal. unfold len. cbn [length]. lia.
Qed.

(** ** Advertising reports *)

Ltac norma :=
  unfold modify_adv, modify_conn, modify_hci, gets, with_slot;
  norm;
  unfold set_reported, set_adv_status, set_typ, set_adv_peerBdaddrType,
    set_adv_peerBdaddr, set_eirLength, set_eirData, set_rssi;
  cbn [reported adv_status typ adv_peerBdaddrType adv_peerBdaddr eirLength
       eirData rssi a_hci advData].

Lemma clearAdvData_eq (s : St) :
  clearAdvData s = Done None (with_slot cleared s).
Proof. reflexivity. Qed.

Lemma copy_list_same_length (dst src : list Z) :
  length src = length dst -> copy_list dst src = src.
Proof.
  intros H. unfold copy_list.
  rewrite take_ge, drop_ge, app_nil_r by lia. reflexivity.
Qed.

(** The decoder up to the test of the EIR length. *)
Lemma handleAdvertisingReport_prefix (st typ atype n : Z)
    (addr tail B : list Z) (rest : list (option Z)) (s : St)
    (adv : bool -> M (option error)) :
  length addr = 6%nat ->
  length (adv_peerBdaddr (advData (a_hci s))) = 6%nat ->
  (length tail <= 241)%nat ->
  let frame := adv_report st typ atype addr n tail in
  let s0 := received (loaded frame B) rest s in
  handleEventData adv (mkSlice 1 (len frame - 1) 255) s0
  = ((if u8 (u8 (13 + n) + 1) >? 13 + len tail then
        clearAdvData >> ret tt
      else if n <? 64 then
        let* src := reslice (mkSlice 1 (len frame - 1) 255) 13
                      (u8 (u8 (13 + n) + 1)) in
        let* bytes := sl_bytes src in
        modify_adv (fun a => set_eirData (copy_list (eirData a) bytes) a) >>
        let* st := gets (fun h => adv_status (advData h)) in
        if st =? 0x01 then
          let* r := sl_get (mkSlice 1 (len frame - 1) 255) (u8 (13 + n)) in
          modify_adv (set_rssi (i8 r))
        else ret tt
      else ret tt) >> ret None)
      (with_slot (mkAdv true st typ atype addr n
                        (eirData (advData (a_hci s))) 0) s0).
Proof.
  intros Haddr Hold Htail frame s0.
  destruct addr as [|a0 [|a1 [|a2 [|a3 [|a4 [|a5 [|]]]]]]]; try discriminate.
  destruct s as [[r t w] tm [b ad co cs cr sc av cd] asc].
  destruct av as [rep ast atyp aat aaddr alen aeir arssi].
  simpl in Hold.
  subst s0 frame. unfold adv_report, received. norma.
  unfold handleEventData.
  run ltac:(frame_byte). run ltac:(frame_byte).
  change (EVT_LE_META_EVENT =? EVT_DISCONN_COMPLETE) with false.
  change (EVT_LE_META_EVENT =? EVT_ENCRYPTION_CHANGE) with false.
  change (EVT_LE_META_EVENT =? EVT_CMD_COMPLETE) with false.
  change (EVT_LE_META_EVENT =? EVT_CMD_STATUS) with false.
  change (EVT_LE_META_EVENT =? EVT_NUM_COMP_PKTS) with false.
  change (EVT_LE_META_EVENT =? EVT_LE_META_EVENT) with true. cbv iota.
  run ltac:(frame_byte).
  change ((LE_META_EVENT_ADVERTISING_REPORT =? LE_META_EVENT_CONN_COMPLETE)
          || (LE_META_EVENT_ADVERTISING_REPORT
              =? LE_META_EVENT_ENHANCED_CONNECTION_COMPLETE)) with false.
  change (LE_META_EVENT_ADVERTISING_REPORT
          =? LE_META_EVENT_ADVERTISING_REPORT) with true. cbv iota.
  unfold handleAdvertisingReport.
  run ltac:(reflexivity). norma.
  run ltac:(frame_byte). run ltac:(reflexivity). norma.
  run ltac:(frame_byte). run ltac:(reflexivity). norma.
  run ltac:(frame_byte). run ltac:(reflexivity). norma.
  run ltac:(apply reslice_eq; cbn [s_cap]; lia).
  run ltac:(reflexivity). norma.
  run ltac:(reflexivity). norma.
  run ltac:(frame_byte). run ltac:(reflexivity). norma.
  run ltac:(reflexivity). norma.
  run ltac:(reflexivity). norma.
  rewrite copy_list_same_length by (rewrite Hold; reflexivity).
  replace (len (event_frame EVT_LE_META_EVENT
                  (LE_META_EVENT_ADVERTISING_REPORT :: st :: typ :: atype
                     :: [a0; a1; a2; a3; a4; a5] ++ n :: tail)) - 1)
    with (13 + len tail) by (unfold len; simpl length; lia).
  reflexivity.
Qed.

Lemma adv_report_length (st typ atype n : Z) (addr tail : list Z) :
  length addr = 6%nat ->
  length (adv_report st typ atype addr n tail) = (14 + length tail)%nat.
Proof.
  intros H. unfold adv_report, event_frame. simpl.
  rewrite length_app, H. simpl. lia.
Qed.

Lemma adv_report_tail (st typ atype n : Z) (addr tail B : list Z) :
  length addr = 6%nat ->
  drop 14 (loaded (adv_report st typ atype addr n tail) B)
  = tail ++ drop (14 + length tail) B.
Proof.
  intros H.
  destruct addr as [|a0 [|a1 [|a2 [|a3 [|a4 [|a5 [|]]]]]]]; try discriminate.
  reflexivity.
Qed.

(** Polling a whole advertising report runs the decoder on it. *)
Lemma poll_adv_report (st typ atype n : Z) (addr tail : list Z)
    (rest : list (option Z)) (fuel : nat) (s : St) :
  let frame := adv_report st typ atype addr n tail in
  Forall is_byte (st :: typ :: atype :: addr ++ n :: tail) ->
  length addr = 6%nat -> (length tail <= 241)%nat ->
  length (buf (a_hci s)) = 256%nat ->
  rx (uart s) = stream frame ++ rest ->
  poll (length frame + fuel) s
  = handleEventData (leSetAdvertiseEnable fuel)
      (mkSlice 1 (len frame - 1) 255)
      (received (loaded frame (buf (a_hci s))) rest s).
Proof.
  intros frame Hbytes Haddr Htail Hbuf Hrx.
  apply poll_event; try done.
  - apply Forall_cons_2; [|done]. unfold is_byte. done.
  - simpl. rewrite length_app, Haddr. simpl. lia.
Qed.


(** * The correlator *)

(** Lists of byte literals. *)
Ltac closed_bytes :=
  repeat first [apply Forall_nil_2 | apply Forall_cons_2];
  vm_compute; (split; [discriminate | reflexivity]).

(** X1.  When the write of the command packet fails,
    [sendCommandWithParams] returns the error of the transport at once:
    the packet is in the buffer, but the completion state is not reset,
    the clock is not read and nothing is polled. *)
Theorem sendCommandWithParams_write_failure (fuel : nat) (opcode : Z)
    (params : list Z) (s : St) :
  length (buf (a_hci s)) = 256%nat ->
  (length params <= 252)%nat ->
  wfail (uart s) (length (tx (uart s))) = true ->
  sendCommandWithParams (S fuel) opcode params s
  = Done (Some ErrUART) (unsent_state opcode params s).
Proof.
  intros Hbuf Hpar Hw. rewrite send_prelude by done. by rewrite Hw.
Qed.

Lemma sendCommandWithParams_write_failure_witness :
  sendCommandWithParams 1 0x0c03 []
    (mkSt (mkUART [] [] (fun _ => true)) seconds_clock newHCI false)
  = Done (Some ErrUART)
      (unsent_state 0x0c03 []
         (mkSt (mkUART [] [] (fun _ => true)) seconds_clock newHCI false)).
Proof.
  apply (sendCommandWithParams_write_failure 0 0x0c03 []
           (mkSt (mkUART [] [] (fun _ => true)) seconds_clock newHCI false)).
  - reflexivity.
  - simpl. lia.
  - reflexivity.
Defined.

(** X2.  On a transport that stays silent, a command other than 0xffff
    is written once and [sendCommandWithParams] returns [ErrHCITimeout]
    at the first reading of the clock that is more than three whole
    seconds after the reading taken at the start: after [d] readings
    within the limit it has read the clock [d + 2] times in all. *)
Theorem sendCommandWithParams_silent_timeout (d fuel : nat) (opcode : Z)
    (params : list Z) (s : St) :
  length (buf (a_hci s)) = 256%nat ->
  (length params <= 252)%nat ->
  wfail (uart s) (length (tx (uart s))) = false ->
  rx (uart s) = [] ->
  opcode <> 0xffff ->
  (forall k, (k < d)%nat ->
     elapsed s (clock (time s) (ticks (time s))) (S k + ticks (time s)) <= 3) ->
  elapsed s (clock (time s) (ticks (time s))) (S d + ticks (time s)) > 3 ->
  sendCommandWithParams (d + 3 + fuel) opcode params s
  = Done (Some ErrHCITimeout) (tick (S d) (sent_state opcode params s)).
Proof. apply sendCommandWithParams_silent. Qed.

Lemma sendCommandWithParams_silent_timeout_witness :
  sendCommandWithParams (3 + 3 + 0) 0x0c03 [] (boot [])
  = Done (Some ErrHCITimeout) (tick 4 (sent_state 0x0c03 [] (boot []))).
Proof.
  apply (sendCommandWithParams_silent_timeout 3 0 0x0c03 [] (boot [])).
  - reflexivity.
  - simpl. lia.
  - reflexivity.
  - reflexivity.
  - lia.
  - intros k Hk. destruct k as [|[|[|k]]]; [vm_compute; discriminate..|lia].
  - vm_compute. reflexivity.
Defined.

(** X3.  The opcode 0xffff is the value the completion state is reset
    to: a command with this opcode is written and reported complete
    without a poll and without a second reading of the clock. *)
Theorem sendCommandWithParams_sentinel_opcode (fuel : nat)
    (params : list Z) (s : St) :
  length (buf (a_hci s)) = 256%nat ->
  (length params <= 252)%nat ->
  wfail (uart s) (length (tx (uart s))) = false ->
  sendCommandWithParams (S (S fuel)) 0xffff params s
  = Done None (sent_state 0xffff params s).
Proof.
  intros Hbuf Hpar Hw. rewrite send_prelude by done. rewrite Hw.
  by apply send_wait_done.
Qed.

Lemma sendCommandWithParams_sentinel_opcode_witness :
  sendCommandWithParams 2 0xffff [] (boot [])
  = Done None (sent_state 0xffff [] (boot [])).
Proof.
  apply (sendCommandWithParams_sentinel_opcode 0 [] (boot [])).
  - reflexivity.
  - simpl. lia.
  - reflexivity.
Defined.

(** X4.  A command-complete event for the opcode sent, buffered when the
    wait begins, is consumed by the first [poll]: the completion state
    takes the opcode, the status byte and the response [h.buf[2:plen+3]],
    and the command returns nil, unless the reading of the clock that
    follows the poll is more than three whole seconds after the start:
    then it returns [ErrHCITimeout] although the completion is
    recorded. *)
Theorem sendCommandWithParams_completion (fuel : nat) (opcode ncmd st : Z)
    (params ret_params : list Z) (rest : list (option Z)) (s : St) :
  let frame := completion_of opcode ncmd st ret_params in
  length (buf (a_hci s)) = 256%nat ->
  (length params <= 252)%nat ->
  wfail (uart s) (length (tx (uart s))) = false ->
  0 <= opcode < 0xffff ->
  is_byte ncmd -> is_byte st -> Forall is_byte ret_params ->
  (length ret_params <= 248)%nat ->
  rx (uart s) = stream frame ++ rest ->
  sendCommandWithParams (2 + length frame + fuel) opcode params s
  = Done (if elapsed s (clock (time s) (ticks (time s))) (S (ticks (time s)))
             >? 3
          then Some ErrHCITimeout else None)
         (tick 1
            (completed opcode st (mkSlice 2 (5 + len ret_params) 254)
               (received
                  (loaded frame
                     (loaded (command_packet opcode params) (buf (a_hci s))))
                  rest (sent_state opcode params s)))).
Proof. apply send_completes. Qed.

Lemma sendCommandWithParams_completion_witness :
  sendCommandWithParams (2 + length (completion_of 0x0c03 1 0 []) + 0)
    0x0c03 [] (boot (stream (completion_of 0x0c03 1 0 []) ++ []))
  = Done None
      (tick 1
         (completed 0x0c03 0 (mkSlice 2 5 254)
            (received
               (loaded (completion_of 0x0c03 1 0 [])
                  (loaded (command_packet 0x0c03 []) (zeros 256)))
               []
               (sent_state 0x0c03 []
                  (boot (stream (completion_of 0x0c03 1 0 []) ++ [])))))).
Proof.
  apply (sendCommandWithParams_completion 0 0x0c03 1 0 [] [] []
           (boot (stream (completion_of 0x0c03 1 0 []) ++ []))).
  - reflexivity.
  - simpl. lia.
  - reflexivity.
  - lia.
  - unfold is_byte. lia.
  - unfold is_byte. lia.
  - constructor.
  - simpl. lia.
  - reflexivity.
Defined.

(** * The assembler *)

(** X5.  An event frame with 1 to 252 parameter bytes that is buffered
    without gaps is consumed by one [poll], byte for byte and no byte
    more; the decoder is called once, on [h.buf[1:3+plen]], with the
    frame at the start of the buffer and the rest of the buffer and of
    the transport untouched. *)
Theorem poll_event_frame (evt : Z) (params : list Z)
    (rest : list (option Z)) (fuel : nat) (s : St) :
  is_byte evt -> Forall is_byte params ->
  (1 <= length params <= 252)%nat ->
  length (buf (a_hci s)) = 256%nat ->
  rx (uart s) = stream (event_frame evt params) ++ rest ->
  poll (length (event_frame evt params) + fuel) s
  = handleEventData (leSetAdvertiseEnable fuel)
      (mkSlice 1 (2 + len params) 255)
      (received (loaded (event_frame evt params) (buf (a_hci s))) rest s).
Proof.
  intros Hevt Hpar Hlen Hbuf Hrx.
  rewrite (poll_event evt params rest) by done.
  do 2 f_equal. unfold len. simpl length. lia.
Qed.

Lemma poll_event_frame_witness :
  poll (length (event_frame 0x13 [1; 0x40; 0; 1; 0]) + 0)
       (boot (stream (event_frame 0x13 [1; 0x40; 0; 1; 0]) ++ [Some 0x04]))
  = handleEventData (leSetAdvertiseEnable 0) (mkSlice 1 (2 + 5) 255)
      (received (loaded (event_frame 0x13 [1; 0x40; 0; 1; 0]) (zeros 256))
         [Some 0x04]
         (boot (stream (event_frame 0x13 [1; 0x40; 0; 1; 0])
                  ++ [Some 0x04]))).
Proof.
  apply (poll_event_frame 0x13 [1; 0x40; 0; 1; 0] [Some 0x04] 0
           (boot (stream (event_frame 0x13 [1; 0x40; 0; 1; 0])
                    ++ [Some 0x04]))).
  - unfold is_byte. lia.
  - closed_bytes.
  - simpl. lia.
  - reflexivity.
  - reflexivity.
Defined.

(** X6.  An ACL-data frame is consumed and dropped: [poll] reads the five
    header bytes and as many payload bytes as the low length byte says,
    but never fewer than one, so that a frame with an empty payload takes
    the byte that follows it; the high length byte plays no part.  Only
    the buffer and the transport change. *)
Theorem poll_acl_frame (h0 h1 b3 b4 : Z) (payload : list Z)
    (rest : list (option Z)) (fuel : nat) (s : St) :
  Forall is_byte (acl_frame h0 h1 b3 b4 payload) ->
  b3 <= 250 -> len payload = Z.max 1 b3 ->
  length (buf (a_hci s)) = 256%nat ->
  rx (uart s) = stream (acl_frame h0 h1 b3 b4 payload) ++ rest ->
  poll (length (acl_frame h0 h1 b3 b4 payload) + fuel) s
  = Done None
      (received (loaded (acl_frame h0 h1 b3 b4 payload) (buf (a_hci s)))
                rest s).
Proof.
  intros Hbytes Hb3 Hlen Hbuf Hrx.
  apply (poll_loop_acl_frame h0 h1 b3 b4 payload (buf (a_hci s)) rest fuel
           Hbytes Hb3 Hlen Hbuf (acl_frame h0 h1 b3 b4 payload) [] s);
    done.
Qed.

Lemma poll_acl_frame_witness :
  poll (length (acl_frame 0x40 0x20 0 1 [0x04]) + 0)
       (boot (stream (acl_frame 0x40 0x20 0 1 [0x04]) ++ [Some 0x0e]))
  = Done None
      (received (loaded (acl_frame 0x40 0x20 0 1 [0x04]) (zeros 256))
         [Some 0x0e]
         (boot (stream (acl_frame 0x40 0x20 0 1 [0x04]) ++ [Some 0x0e]))).
Proof.
  apply (poll_acl_frame 0x40 0x20 0 1 [0x04] [Some 0x0e] 0
           (boot (stream (acl_frame 0x40 0x20 0 1 [0x04]) ++ [Some 0x0e]))).
  - closed_bytes.
  - lia.
  - reflexivity.
  - reflexivity.
  - reflexivity.
Defined.

(** X7.  A command-complete event with at least four parameter bytes sets
    the completion opcode from the second and third of them, low byte
    first, the completion status from the fourth, and the response to
    [h.buf[2:plen+3]], a window on the frame buffer that starts at the
    length byte of the event. *)
Theorem poll_command_complete (ncmd lo hi st : Z) (ret_params : list Z)
    (rest : list (option Z)) (fuel : nat) (s : St) :
  let params := ncmd :: lo :: hi :: st :: ret_params in
  let frame := event_frame EVT_CMD_COMPLETE params in
  Forall is_byte params ->
  (length ret_params <= 248)%nat ->
  length (buf (a_hci s)) = 256%nat ->
  rx (uart s) = stream frame ++ rest ->
  poll (length frame + fuel) s
  = Done None
      (completed (u16_of_bytes lo hi) st (mkSlice 2 (len params + 1) 254)
         (received (loaded frame (buf (a_hci s))) rest s)).
Proof.
  intros params frame Hbytes Hlen Hbuf Hrx.
  unfold frame. rewrite (poll_event EVT_CMD_COMPLETE params rest).
  - by apply handleEventData_cmd_complete.
  - unfold is_byte, EVT_CMD_COMPLETE. lia.
  - done.
  - unfold params. simpl. lia.
  - done.
  - done.
Qed.

Lemma poll_command_complete_witness :
  poll (length (event_frame EVT_CMD_COMPLETE [1; 0x0c; 0x20; 0]) + 0)
       (boot (stream (event_frame EVT_CMD_COMPLETE [1; 0x0c; 0x20; 0]) ++ []))
  = Done None
      (completed (u16_of_bytes 0x0c 0x20) 0 (mkSlice 2 (4 + 1) 254)
         (received
            (loaded (event_frame EVT_CMD_COMPLETE [1; 0x0c; 0x20; 0])
                    (zeros 256))
            []
            (boot (stream (event_frame EVT_CMD_COMPLETE [1; 0x0c; 0x20; 0])
                     ++ [])))).
Proof.
  apply (poll_command_complete 1 0x0c 0x20 0 [] [] 0
           (boot (stream (event_frame EVT_CMD_COMPLETE [1; 0x0c; 0x20; 0])
                    ++ []))).
  - closed_bytes.
  - simpl. lia.
  - reflexivity.
  - reflexivity.
Defined.

(** X8.  A command-status event with at least four parameter bytes sets
    the completion status from the first of them and the completion
    opcode from the third and fourth, and leaves an empty response. *)
Theorem poll_command_status (st ncmd lo hi : Z) (tail : list Z)
    (rest : list (option Z)) (fuel : nat) (s : St) :
  let params := st :: ncmd :: lo :: hi :: tail in
  let frame := event_frame EVT_CMD_STATUS params in
  Forall is_byte params ->
  (length tail <= 248)%nat ->
  length (buf (a_hci s)) = 256%nat ->
  rx (uart s) = stream frame ++ rest ->
  poll (length frame + fuel) s
  = Done None
      (completed (u16_of_bytes lo hi) st (mkSlice 1 0 255)
         (received (loaded frame (buf (a_hci s))) rest s)).
Proof.
  intros params frame Hbytes Hlen Hbuf Hrx.
  unfold frame. rewrite (poll_event EVT_CMD_STATUS params rest).
  - by apply handleEventData_cmd_status.
  - unfold is_byte, EVT_CMD_STATUS. lia.
  - done.
  - unfold params. simpl. lia.
  - done.
  - done.
Qed.

Lemma poll_command_status_witness :
  poll (length (event_frame EVT_CMD_STATUS [0; 1; 0x0d; 0x20]) + 0)
       (boot (stream (event_frame EVT_CMD_STATUS [0; 1; 0x0d; 0x20]) ++ []))
  = Done None
      (completed (u16_of_bytes 0x0d 0x20) 0 (mkSlice 1 0 255)
         (received
            (loaded (event_frame EVT_CMD_STATUS [0; 1; 0x0d; 0x20])
                    (zeros 256))
            []
            (boot (stream (event_frame EVT_CMD_STATUS [0; 1; 0x0d; 0x20])
                     ++ [])))).
Proof.
  apply (poll_command_status 0 1 0x0d 0x20 [] [] 0
           (boot (stream (event_frame EVT_CMD_STATUS [0; 1; 0x0d; 0x20])
                    ++ []))).
  - closed_bytes.
  - simpl. lia.
  - reflexivity.
  - reflexivity.
Defined.

(** X9.  A disconnection-complete event makes [poll] send a command of
    its own: the poll is the call [sendCommandWithParams] of LE Set
    Advertise Enable with the parameter 1, entered with the event in the
    buffer; whatever that command returns, a timeout included, is what
    [poll] returns. *)
Theorem poll_disconnection_complete (params : list Z)
    (rest : list (option Z)) (fuel : nat) (s : St) :
  let frame := event_frame EVT_DISCONN_COMPLETE params in
  Forall is_byte params ->
  (1 <= length params <= 252)%nat ->
  length (buf (a_hci s)) = 256%nat ->
  rx (uart s) = stream frame ++ rest ->
  poll (length frame + fuel) s
  = sendCommandWithParams fuel
      (opcode_of OGF_LE_CTL OCF_LE_SET_ADVERTISE_ENABLE) [1]
      (received (loaded frame (buf (a_hci s))) rest s).
Proof.
  intros frame Hbytes Hlen Hbuf Hrx.
  unfold frame. rewrite (poll_event EVT_DISCONN_COMPLETE params rest).
  - rewrite handleEventData_other; [reflexivity | lia | done..].
  - unfold is_byte, EVT_DISCONN_COMPLETE. lia.
  - done.
  - done.
  - done.
  - done.
Qed.

Lemma poll_disconnection_complete_witness :
  poll (length (event_frame EVT_DISCONN_COMPLETE [0; 0x40; 0; 0x13]) + 0)
       (boot (stream (event_frame EVT_DISCONN_COMPLETE [0; 0x40; 0; 0x13])
                ++ []))
  = sendCommandWithParams 0
      (opcode_of OGF_LE_CTL OCF_LE_SET_ADVERTISE_ENABLE) [1]
      (received
         (loaded (event_frame EVT_DISCONN_COMPLETE [0; 0x40; 0; 0x13])
                 (zeros 256))
         []
         (boot (stream (event_frame EVT_DISCONN_COMPLETE [0; 0x40; 0; 0x13])
                  ++ []))).
Proof.
  apply (poll_disconnection_complete [0; 0x40; 0; 0x13] [] 0
           (boot (stream (event_frame EVT_DISCONN_COMPLETE
                            [0; 0x40; 0; 0x13]) ++ []))).
  - closed_bytes.
  - simpl. lia.
  - reflexivity.
  - reflexivity.
Defined.

(** X10.  Of the events that are neither a completion, a status, an LE
    meta event nor a disconnection, the decoder reads the code only: the
    event 0x10 makes [poll] return [ErrHCIUnknownEvent], every other one
    is dropped with nil; in both cases only the buffer and the transport
    change. *)
Theorem poll_other_event (evt : Z) (params : list Z)
    (rest : list (option Z)) (fuel : nat) (s : St) :
  let frame := event_frame evt params in
  is_byte evt -> Forall is_byte params ->
  (1 <= length params <= 252)%nat ->
  evt <> EVT_DISCONN_COMPLETE -> evt <> EVT_CMD_COMPLETE ->
  evt <> EVT_CMD_STATUS -> evt <> EVT_LE_META_EVENT ->
  length (buf (a_hci s)) = 256%nat ->
  rx (uart s) = stream frame ++ rest ->
  poll (length frame + fuel) s
  = Done (if evt =? EVT_UNKNOWN then Some ErrHCIUnknownEvent else None)
         (received (loaded frame (buf (a_hci s))) rest s).
Proof.
  intros frame Hevt Hbytes Hlen H1 H2 H3 H4 Hbuf Hrx.
  unfold frame. rewrite (poll_event evt params rest) by done.
  rewrite handleEventData_other by (done || lia).
  apply Z.eqb_neq in H1. by rewrite H1.
Qed.

Lemma poll_other_event_witness :
  poll (length (event_frame EVT_UNKNOWN [0]) + 0)
       (boot (stream (event_frame EVT_UNKNOWN [0]) ++ []))
  = Done (Some ErrHCIUnknownEvent)
         (received (loaded (event_frame EVT_UNKNOWN [0]) (zeros 256)) []
            (boot (stream (event_frame EVT_UNKNOWN [0]) ++ []))).
Proof.
  apply (poll_other_event EVT_UNKNOWN [0] [] 0
           (boot (stream (event_frame EVT_UNKNOWN [0]) ++ [])));
    try reflexivity; try discriminate.
  - unfold is_byte, EVT_UNKNOWN. lia.
  - closed_bytes.
  - simpl. lia.
Defined.

(** * Advertising reports in the slot *)

(** X11.  A report whose EIR length [n] (at most 241) runs past the end
    of the event leaves the slot cleared: nothing of it is reported. *)
Theorem poll_adv_report_overrun (st typ atype n : Z) (addr tail : list Z)
    (rest : list (option Z)) (fuel : nat) (s : St) :
  let frame := adv_report st typ atype addr n tail in
  Forall is_byte (st :: typ :: atype :: addr ++ n :: tail) ->
  length addr = 6%nat ->
  length (adv_peerBdaddr (advData (a_hci s))) = 6%nat ->
  length (buf (a_hci s)) = 256%nat ->
  rx (uart s) = stream frame ++ rest ->
  len tail <= n <= 241 ->
  poll (length frame + fuel) s
  = Done None
      (with_slot cleared (received (loaded frame (buf (a_hci s))) rest s)).
Proof.
  intros frame Hbytes Haddr Hold Hbuf Hrx [Hn1 Hn2].
  assert (length tail <= 241)%nat as Htail by (unfold len in Hn1; lia).
  unfold frame. rewrite (poll_adv_report st typ atype n addr tail rest) by done.
  rewrite handleAdvertisingReport_prefix by done.
  assert (0 <= n).
  { unfold len in Hn1. lia. }
  assert (u8 (u8 (13 + n) + 1) = 14 + n) as ->.
  { rewrite (u8_byte (13 + n)) by (unfold is_byte; lia).
    replace (13 + n + 1) with (14 + n) by lia.
    apply u8_byte. unfold is_byte. lia. }
  assert ((14 + n >? 13 + len tail) = true) as -> by (apply Z.gtb_gt; lia).
  reflexivity.
Qed.

Lemma poll_adv_report_overrun_witness :
  poll (length (adv_report 1 4 0 [1; 2; 3; 4; 5; 6] 9 [2; 9; 0x41]) + 0)
       (boot (stream (adv_report 1 4 0 [1; 2; 3; 4; 5; 6] 9 [2; 9; 0x41])
                ++ []))
  = Done None
      (with_slot cleared
         (received
            (loaded (adv_report 1 4 0 [1; 2; 3; 4; 5; 6] 9 [2; 9; 0x41])
                    (zeros 256))
            []
            (boot (stream (adv_report 1 4 0 [1; 2; 3; 4; 5; 6] 9 [2; 9; 0x41])
                     ++ [])))).
Proof.
  apply (poll_adv_report_overrun 1 4 0 9 [1; 2; 3; 4; 5; 6] [2; 9; 0x41] [] 0
           (boot (stream (adv_report 1 4 0 [1; 2; 3; 4; 5; 6] 9 [2; 9; 0x41])
                    ++ [])));
    try reflexivity.
  - closed_bytes.
  - unfold len. simpl. lia.
Defined.

(** The copy of the EIR data and of the RSSI. *)
Lemma adv_copy_eq (st typ atype n r : Z) (addr tail old B : list Z)
    (rest : list (option Z)) (s : St) :
  let frame := adv_report st typ atype addr n tail in
  let b := mkSlice 1 (len frame - 1) 255 in
  let s0 := with_slot (mkAdv true st typ atype addr n old 0)
              (received (loaded frame B) rest s) in
  length addr = 6%nat -> (length tail <= 241)%nat ->
  length old = 64%nat -> 0 <= n < 64 ->
  tail !! Z.to_nat n = Some r ->
  (let* src := reslice b 13 (14 + n) in
   let* bytes := sl_bytes src in
   modify_adv (fun a => set_eirData (copy_list (eirData a) bytes) a) >>
   let* st := gets (fun h => adv_status (advData h)) in
   if st =? 0x01 then
     let* r := sl_get b (13 + n) in
     modify_adv (set_rssi (i8 r))
   else ret tt) s0
  = Done tt
      (with_slot
         (mkAdv true st typ atype addr n
            (take (Z.to_nat (n + 1)) tail ++ drop (Z.to_nat (n + 1)) old)
            (if st =? 0x01 then i8 r else 0))
         (received (loaded frame B) rest s)).
Proof.
  intros frame b s0 Haddr Htail Hold Hn Hr.
  assert (length tail > Z.to_nat n)%nat as Hfit.
  { apply lookup_lt_Some in Hr. lia. }
  assert (length frame = (14 + length tail)%nat) as Hflen
    by (by apply adv_report_length).
  pose proof (adv_report_tail st typ atype n addr tail B Haddr) as Hdrop.
  fold frame in Hdrop.
  destruct s as [[rx0 t w] tm [hb ad co cs cr sc av cd] asc].
  subst s0 b. unfold received. norma.
  run ltac:(apply reslice_eq; cbn [s_cap]; lia). cbn [s_off s_cap].
  run ltac:(reflexivity). norma.
  change (Z.to_nat (1 + 13)) with 14%nat. rewrite Hdrop.
  replace (14 + n - 13) with (n + 1) by lia.
  rewrite take_app_le by lia.
  run ltac:(reflexivity). norma.
  run ltac:(reflexivity). norma.
  assert (copy_list old (take (Z.to_nat (n + 1)) tail)
          = take (Z.to_nat (n + 1)) tail ++ drop (Z.to_nat (n + 1)) old)
    as ->.
  { unfold copy_list. rewrite length_take, Hold.
    rewrite (take_ge _ 64) by (rewrite length_take; lia).
    do 2 f_equal. lia. }
  destruct (st =? 1); [|reflexivity].
  run ltac:(apply (sl_get_eq _ _ r);
            [ cbn [s_len]; unfold len; rewrite Hflen; lia
            | cbn [s_off]; lia
            | norm; cbn [s_off];
              replace (Z.to_nat (1 + (13 + n))) with (14 + Z.to_nat n)%nat
                by lia;
              rewrite <- lookup_drop, Hdrop; by rewrite lookup_app_l by lia ]).
  reflexivity.
Qed.

(** X12.  A report with an EIR length [n] below 64 that fits in the event
    fills the slot: status, type, address type and address from the bytes
    of the event, [n + 1] bytes copied to the start of [eirData], the
    byte after the EIR data included, with the bytes of the report before
    it left in place behind them; the RSSI is the byte after the EIR
    data, as a signed byte, when the status byte is 1, and 0 otherwise. *)
Theorem poll_adv_report_populated (st typ atype n : Z) (addr tail : list Z)
    (rest : list (option Z)) (fuel : nat) (s : St) :
  let frame := adv_report st typ atype addr n tail in
  Forall is_byte (st :: typ :: atype :: addr ++ n :: tail) ->
  length addr = 6%nat -> (length tail <= 241)%nat ->
  length (adv_peerBdaddr (advData (a_hci s))) = 6%nat ->
  length (eirData (advData (a_hci s))) = 64%nat ->
  length (buf (a_hci s)) = 256%nat ->
  rx (uart s) = stream frame ++ rest ->
  0 <= n < 64 -> n < len tail ->
  poll (length frame + fuel) s
  = Done None
      (with_slot
         (mkAdv true st typ atype addr n
            (take (Z.to_nat (n + 1)) tail
               ++ drop (Z.to_nat (n + 1)) (eirData (advData (a_hci s))))
            (if st =? 0x01 then i8 (default 0 (tail !! Z.to_nat n)) else 0))
         (received (loaded frame (buf (a_hci s))) rest s)).
Proof.
  intros frame Hbytes Haddr Htail Hold Heir Hbuf Hrx [Hn1 Hn2] Hfit.
  unfold len in Hfit.
  unfold frame.
  rewrite (poll_adv_report st typ atype n addr tail rest) by done.
  rewrite handleAdvertisingReport_prefix by done.
  assert (u8 (13 + n) = 13 + n) as Hu by (apply u8_byte; unfold is_byte; lia).
  assert (u8 (u8 (13 + n) + 1) = 14 + n) as ->.
  { rewrite Hu. replace (13 + n + 1) with (14 + n) by lia.
    apply u8_byte. unfold is_byte. lia. }
  assert ((14 + n >? 13 + len tail) = false) as ->.
  { rewrite Z.gtb_ltb. apply Z.ltb_ge. unfold len. lia. }
  assert ((n <? 64) = true) as -> by (apply Z.ltb_lt; lia).
  rewrite Hu.
  destruct (lookup_lt_is_Some_2 tail (Z.to_nat n) ltac:(lia)) as [r Hr].
  rewrite Hr. cbn [default].
  unfold bind at 1.
  rewrite (adv_copy_eq st typ atype n r addr tail _ _ rest s) by done.
  reflexivity.
Qed.

Lemma poll_adv_report_populated_witness :
  poll (length (adv_report 1 4 0 [1; 2; 3; 4; 5; 6] 3 [2; 9; 0x41; 0xCE]) + 0)
       (boot (stream (adv_report 1 4 0 [1; 2; 3; 4; 5; 6] 3
                        [2; 9; 0x41; 0xCE]) ++ []))
  = Done None
      (with_slot
         (mkAdv true 1 4 0 [1; 2; 3; 4; 5; 6] 3
            (take (Z.to_nat (3 + 1)) [2; 9; 0x41; 0xCE]
               ++ drop (Z.to_nat (3 + 1)) (zeros 64))
            (i8 0xCE))
         (received
            (loaded (adv_report 1 4 0 [1; 2; 3; 4; 5; 6] 3 [2; 9; 0x41; 0xCE])
                    (zeros 256))
            []
            (boot (stream (adv_report 1 4 0 [1; 2; 3; 4; 5; 6] 3
                             [2; 9; 0x41; 0xCE]) ++ [])))).
Proof.
  apply (poll_adv_report_populated 1 4 0 3 [1; 2; 3; 4; 5; 6]
           [2; 9; 0x41; 0xCE] [] 0
           (boot (stream (adv_report 1 4 0 [1; 2; 3; 4; 5; 6] 3
                            [2; 9; 0x41; 0xCE]) ++ [])));
    try reflexivity.
  - closed_bytes.
  - simpl. lia.
  - lia.
Defined.

(** X13.  A report whose EIR length is 64 or more and which passes the
    length test, because it fits in the event or because the test
    wraps around at 242, is left in the slot as reported, with the EIR
    data of the report before it and the RSSI 0. *)
Theorem poll_adv_report_long (st typ atype n : Z) (addr tail : list Z)
    (rest : list (option Z)) (fuel : nat) (s : St) :
  let frame := adv_report st typ atype addr n tail in
  Forall is_byte (st :: typ :: atype :: addr ++ n :: tail) ->
  length addr = 6%nat -> (length tail <= 241)%nat ->
  length (adv_peerBdaddr (advData (a_hci s))) = 6%nat ->
  length (buf (a_hci s)) = 256%nat ->
  rx (uart s) = stream frame ++ rest ->
  is_byte n -> 64 <= n -> n < len tail \/ 242 <= n ->
  poll (length frame + fuel) s
  = Done None
      (with_slot
         (mkAdv true st typ atype addr n (eirData (advData (a_hci s))) 0)
         (received (loaded frame (buf (a_hci s))) rest s)).
Proof.
  intros frame Hbytes Haddr Htail Hold Hbuf Hrx [Hn0 Hn1] Hn Hfit.
  unfold frame.
  rewrite (poll_adv_report st typ atype n addr tail rest) by done.
  rewrite handleAdvertisingReport_prefix by done.
  assert ((u8 (u8 (13 + n) + 1) >? 13 + len tail) = false) as ->.
  { rewrite Z.gtb_ltb. apply Z.ltb_ge. unfold u8, len in *.
    destruct Hfit as [Hfit | Hwrap].
    - rewrite (Z.mod_small (13 + n)) by lia.
      rewrite Z.mod_small by lia. lia.
    - destruct (Z.eq_dec n 242) as [-> | Hne].
      + change ((((13 + 242) mod 256) + 1) mod 256) with 0. lia.
      + replace (13 + n) with ((n - 243) + 1 * 256) by lia.
        rewrite Z.mod_add by lia.
        rewrite (Z.mod_small (n - 243)) by lia.
        rewrite Z.mod_small by lia. lia. }
  assert ((n <? 64) = false) as -> by (apply Z.ltb_ge; lia).
  reflexivity.
Qed.

Lemma poll_adv_report_long_witness :
  poll (length (adv_report 1 4 0 [1; 2; 3; 4; 5; 6] 250 [0xCE]) + 0)
       (boot (stream (adv_report 1 4 0 [1; 2; 3; 4; 5; 6] 250 [0xCE]) ++ []))
  = Done None
      (with_slot
         (mkAdv true 1 4 0 [1; 2; 3; 4; 5; 6] 250 (zeros 64) 0)
         (received
            (loaded (adv_report 1 4 0 [1; 2; 3; 4; 5; 6] 250 [0xCE])
                    (zeros 256))
            []
            (boot (stream (adv_report 1 4 0 [1; 2; 3; 4; 5; 6] 250 [0xCE])
                     ++ [])))).
Proof.
  apply (poll_adv_report_long 1 4 0 250 [1; 2; 3; 4; 5; 6] [0xCE] [] 0
           (boot (stream (adv_report 1 4 0 [1; 2; 3; 4; 5; 6] 250 [0xCE])
                    ++ [])));
    try reflexivity.
  - closed_bytes.
  - simpl. lia.
  - unfold is_byte. lia.
  - lia.
  - right. lia.
Defined.

(** * The adapter *)

(** X14.  [Address] reports the header of the answer, not the address in
    it: when the command-complete event for the read-address command is
    buffered, the six bytes returned are the parameter length of the
    event, its packet count, the two opcode bytes, the status and the
    first byte of the address, because the copy starts at
    [h.cmdResponse[0]], the length byte. *)
Theorem Address_reports_event_header (fuel : nat) (ncmd st a0 : Z)
    (ret_params : list Z) (rest : list (option Z)) (s : St) :
  let frame := completion_of READ_BD_ADDR ncmd st (a0 :: ret_params) in
  length (buf (a_hci s)) = 256%nat ->
  length (address (a_hci s)) = 6%nat ->
  wfail (uart s) (length (tx (uart s))) = false ->
  is_byte ncmd -> is_byte st -> Forall is_byte (a0 :: ret_params) ->
  (length ret_params <= 247)%nat ->
  rx (uart s) = stream frame ++ rest ->
  elapsed s (clock (time s) (ticks (time s))) (S (ticks (time s))) <= 3 ->
  exists s',
    Address_ (2 + length frame + fuel) s
    = Done ([5 + len ret_params; ncmd; 0x09; 0x10; st; a0], None) s'
    /\ address (a_hci s') = [5 + len ret_params; ncmd; 0x09; 0x10; st; a0]
    /\ rx (uart s') = rest.
Proof.
  intros frame Hbuf Haddr Hw Hncmd Hst Hret Hlen Hrx Hel.
  eexists. split; [|split].
  - unfold Address_.
    run ltac:(apply (readBdAddr_completed fuel ncmd st a0 ret_params rest s);
              done).
    run ltac:(reflexivity).
    unfold ret. do 2 f_equal.
    unfold makeAddress. cbn [a_hci with_hci set_address address take fmap
                             list_fmap].
    inversion Hret; subst.
    rewrite !u8_byte; try done. unfold is_byte, len. lia.
  - reflexivity.
  - reflexivity.
Qed.

Lemma Address_reports_event_header_witness :
  exists s',
    Address_
      (2 + length (completion_of READ_BD_ADDR 1 0
                     [0xA0; 0xA1; 0xA2; 0xA3; 0xA4; 0xA5]) + 0)
      (boot (stream (completion_of READ_BD_ADDR 1 0
                       [0xA0; 0xA1; 0xA2; 0xA3; 0xA4; 0xA5]) ++ []))
    = Done ([5 + len [0xA1; 0xA2; 0xA3; 0xA4; 0xA5]; 1; 0x09; 0x10; 0; 0xA0],
            None) s'
    /\ address (a_hci s')
       = [5 + len [0xA1; 0xA2; 0xA3; 0xA4; 0xA5]; 1; 0x09; 0x10; 0; 0xA0]
    /\ rx (uart s') = [].
Proof.
  apply (Address_reports_event_header 0 1 0 0xA0
           [0xA1; 0xA2; 0xA3; 0xA4; 0xA5] []
           (boot (stream (completion_of READ_BD_ADDR 1 0
                            [0xA0; 0xA1; 0xA2; 0xA3; 0xA4; 0xA5]) ++ [])));
    try reflexivity.
  - unfold is_byte. lia.
  - unfold is_byte. lia.
  - closed_bytes.
  - simpl. lia.
  - vm_compute. discriminate.
Defined.

Lemma start_loop_unfold (fuel : nat) :
  start_loop (S fuel)
  = (let* rd := uart_next in
     match rd with
     | None => ret None
     | Some _ => start_loop fuel
     end).
Proof. reflexivity. Qed.

Lemma uart_next_cons (o : option Z) (r : list (option Z)) (s : St) :
  rx (uart s) = o :: r ->
  uart_next s
  = Done (u8 <$> o) (with_uart (fun u => mkUART r (tx u) (wfail u)) s).
Proof. intros H. unfold uart_next. by rewrite H. Qed.

Lemma start_loop_drains (l : list Z) (gap : list (option Z)) (fuel : nat) :
  (forall b, head gap <> Some (Some b)) ->
  forall s : St,
  rx (uart s) = stream l ++ gap ->
  start_loop (S (length l) + fuel) s
  = Done None (with_uart (fun u => mkUART (tail gap) (tx u) (wfail u)) s).
Proof.
  intros Hgap. induction l as [|x l IH]; intros s Hrx.
  - change (S (length []) + fuel)%nat with (S fuel).
    rewrite start_loop_unfold. unfold bind.
    destruct gap as [|[b|] gap'].
    + unfold uart_next. rewrite Hrx.
      destruct s as [[r t w] tm h asc]. simpl in Hrx. by subst r.
    + by destruct (Hgap b).
    + by rewrite (uart_next_cons None gap') by done.
  - change (S (length (x :: l)) + fuel)%nat with (S (S (length l) + fuel)).
    rewrite start_loop_unfold. unfold bind.
    rewrite (uart_next_cons (Some x) (stream l ++ gap)) by done.
    cbn [fmap option_fmap option_map].
    rewrite IH by reflexivity. reflexivity.
Qed.

(** X15.  [start] empties the receive queue: it reads and drops the bytes
    that are buffered one after the other, stops at the first moment at
    which none is, and changes nothing else. *)
Theorem start_drains (l : list Z) (gap : list (option Z)) (fuel : nat)
    (s : St) :
  rx (uart s) = stream l ++ gap ->
  (forall b, head gap <> Some (Some b)) ->
  start (S (length l) + fuel) s
  = Done None (with_uart (fun u => mkUART (tail gap) (tx u) (wfail u)) s).
Proof. intros Hrx Hgap. by apply start_loop_drains. Qed.

Lemma start_drains_witness :
  start (S (length [0x04; 0x0e]) + 0)
        (boot (stream [0x04; 0x0e] ++ [None; Some 0x04]))
  = Done None
      (with_uart (fun u => mkUART (tail [None; Some 0x04]) (tx u) (wfail u))
         (boot (stream [0x04; 0x0e] ++ [None; Some 0x04]))).
Proof.
  apply (start_drains [0x04; 0x0e] [None; Some 0x04] 0
           (boot (stream [0x04; 0x0e] ++ [None; Some 0x04]))).
  - reflexivity.
  - simpl. discriminate.
Defined.

(** * Connection handles *)

Lemma u16_of_bytes_add (lo hi : Z) :
  is_byte lo -> is_byte hi -> u16_of_bytes lo hi = lo + hi * 256.
Proof.
  unfold is_byte, u16_of_bytes, u16. intros Hlo Hhi.
  rewrite Z.shiftl_mul_pow2 by lia. change (2 ^ 8) with 256.
  rewrite (Z.mod_small (hi * 256)) by lia.
  rewrite <- Z.add_nocarry_lor; [reflexivity|].
  apply Z.bits_inj'. intros k Hk. rewrite Z.land_spec, Z.bits_0.
  destruct (Z.lt_ge_cases k 8) as [Hlt | Hge].
  - replace (hi * 256) with (Z.shiftl hi 8)
      by (rewrite Z.shiftl_mul_pow2 by lia; reflexivity).
    rewrite (Z.shiftl_spec_low _ _ _ Hlt). apply andb_false_r.
  - rewrite <- (Z.mod_small lo 256) by lia. change 256 with (2 ^ 8).
    rewrite Z.mod_pow2_bits_high by lia. reflexivity.
Qed.

Lemma handle_round_trip_aux (lo hi : Z) :
  is_byte lo -> is_byte hi -> le16 (u16_of_bytes lo hi) = [lo; hi].
Proof.
  intros Hlo Hhi. rewrite u16_of_bytes_add by done.
  unfold is_byte in *. unfold le16, u8, u16.
  rewrite Z.mod_add by lia. rewrite (Z.mod_small lo) by lia.
  rewrite (Z.mod_small (lo + hi * 256)) by lia.
  rewrite Z.shiftr_div_pow2 by lia. change (2 ^ 8) with 256.
  rewrite Z.div_add by lia. rewrite (Z.div_small lo) by lia.
  rewrite Z.mod_small by lia. reflexivity.
Qed.

(** X16.  The handle that the decoder builds from the two handle bytes of
    a connection-complete event is written back as the same two bytes by
    [disconnect]. *)
Theorem handle_round_trip (lo hi : Z) :
  is_byte lo -> is_byte hi -> le16 (u16_of_bytes lo hi) = [lo; hi].
Proof. apply handle_round_trip_aux. Qed.

Lemma handle_round_trip_witness : le16 (u16_of_bytes 0x40 0x0e) = [0x40; 0x0e].
Proof.
  apply (handle_round_trip 0x40 0x0e); unfold is_byte; lia.
Defined.

(** X17.  [Device.Disconnect] writes the packet 01 06 04 03 lo hi 13 for
    a handle decoded from the bytes lo, hi, and then waits for the
    completion as every command does; when the write fails it returns
    the error of the transport. *)
Theorem Disconnect_packet (fuel : nat) (a : Address) (lo hi : Z) (s : St) :
  is_byte lo -> is_byte hi ->
  length (buf (a_hci s)) = 256%nat ->
  let d := mkDevice a (u16_of_bytes lo hi) in
  let op := opcode_of OGF_LINK_CTL OCF_DISCONNECT in
  command_packet op [lo; hi; 0x13] = [0x01; 0x06; 0x04; 0x03; lo; hi; 0x13]
  /\ Disconnect (S fuel) d s
     = if wfail (uart s) (length (tx (uart s)))
       then Done (Some ErrUART) (unsent_state op [lo; hi; 0x13] s)
       else send_wait fuel op (clock (time s) (ticks (time s)))
                      (sent_state op [lo; hi; 0x13] s).
Proof.
  intros Hlo Hhi Hbuf d op. split; [reflexivity|].
  unfold Disconnect, disconnect, d. cbn [dev_handle].
  rewrite handle_round_trip_aux by done.
  apply send_prelude; [done | simpl; lia].
Qed.

Lemma Disconnect_packet_witness :
  command_packet (opcode_of OGF_LINK_CTL OCF_DISCONNECT) [0x40; 0x0e; 0x13]
  = [0x01; 0x06; 0x04; 0x03; 0x40; 0x0e; 0x13]
  /\ Disconnect 1 (mkDevice peer (u16_of_bytes 0x40 0x0e)) (boot [])
     = send_wait 0 (opcode_of OGF_LINK_CTL OCF_DISCONNECT) 0
         (sent_state (opcode_of OGF_LINK_CTL OCF_DISCONNECT)
                     [0x40; 0x0e; 0x13] (boot [])).
Proof.
  apply (Disconnect_packet 0 peer 0x40 0x0e (boot [])).
  - unfold is_byte. lia.
  - unfold is_byte. lia.
  - reflexivity.
Defined.

(** * Scanning *)

(** X18.  [StopScan] on an adapter that is scanning clears [h.scanning]
    whatever happens to the command; [a.scanning] is cleared only when
    the command succeeds, so that after an error the two flags
    disagree. *)
Theorem StopScan_flags (fuel : nat) (s s' : St) (r : option error) :
  a_scanning s = true ->
  StopScan fuel s = Done r s' ->
  scanning (a_hci s') = false
  /\ a_scanning s' = match r with None => false | Some _ => true end
  /\ engine_error r.
Proof.
  intros Hsc. unfold StopScan, bind, get. rewrite Hsc. cbn [negb].
  unfold leSetScanEnable, bind, modify_hci.
  pose proof (keeps_sendCommandWithParams fuel
                (opcode_of OGF_LE_CTL OCF_LE_SET_SCAN_ENABLE)
                [b2z false; b2z false]
                (with_hci (set_scanning false) s)) as K.
  destruct (sendCommandWithParams _ _ _ _) as [e s1| |]; try discriminate.
  destruct K as [(Hs & Ha & _) He]. cbn in Hs, Ha.
  destruct e as [e|]; intros [= <- <-].
  - rewrite Hs, Ha. auto.
  - cbn. rewrite Hs. auto.
Qed.

Lemma StopScan_flags_witness :
  scanning (a_hci scanning_silent_stopped) = false
  /\ a_scanning scanning_silent_stopped = true
  /\ engine_error (Some ErrHCITimeout).
Proof.
  apply (StopScan_flags 8 scanning_silent scanning_silent_stopped
           (Some ErrHCITimeout)).
  - reflexivity.
  - vm_compute. reflexivity.
Defined.

Section ScanLoop.

Variable callback : ScanResult -> M unit.

Lemma scan_dispatch_result (s s' : St) (c : ctl (option error)) :
  scan_dispatch callback s = Done c s' ->
  c <> Break
  /\ (forall r, c = Return r -> r = None /\ a_scanning s' = false).
Proof.
  unfold scan_dispatch, switch_. unfold bind at 1.
  unfold bind at 1. unfold gets at 1.
  destruct (reported _).
  - unfold bind at 1. unfold gets at 1.
    destruct (negb _).
    + unfold bind. rewrite clearAdvData_eq. intros [= <- <-].
      split; [done|]. intros r [=].
    + unfold bind at 1. unfold gets at 1.
      destruct (_ >? 64).
      * unfold bind. rewrite clearAdvData_eq. intros [= <- <-].
        split; [done|]. intros r [=].
      * unfold bind at 1.
        destruct (eir_loop 64 0 _ s) as [adf s1| |]; try discriminate.
        unfold bind at 1. unfold gets at 1. unfold bind at 1. unfold bind at 1.
        destruct (callback _ s1) as [[] s2| |]; try discriminate.
        unfold bind. rewrite clearAdvData_eq. intros [= <- <-].
        split; [done|]. intros r [=].
  - unfold bind at 1. unfold get at 1.
    destruct (negb (a_scanning s)) eqn:Hsc.
    + intros [= <- <-]. split; [done|]. intros r [= <-].
      split; [done|]. by destruct (a_scanning s).
    + unfold bind, sleep, ret. intros [= <- <-].
      split; [done|]. intros r [=].
Qed.

Lemma scan_body_result (fuel : nat) (s s' : St) (c : ctl (option error)) :
  scan_body callback fuel s = Done c s' ->
  c <> Break /\ (c = Return None -> a_scanning s' = false).
Proof.
  unfold scan_body. unfold bind at 1.
  destruct (poll fuel s) as [[e|] s1| |]; try discriminate.
  - intros [= <- <-]. split; [done|]. intros [=].
  - intros H. apply scan_dispatch_result in H as [H1 H2].
    split; [done|]. intros ->. by destruct (H2 None eq_refl).
Qed.

Lemma scan_loop_result (fuel n : nat) (s s' : St)
    (r : option (option error)) :
  for_ever n (scan_body callback fuel) s = Done r s' ->
  r <> None /\ (r = Some None -> a_scanning s' = false).
Proof.
  revert s. induction n as [|n IH]; intros s; [discriminate|].
  cbn [for_ever]. unfold bind at 1.
  destruct (scan_body callback fuel s) as [c s1| |] eqn:Hb; try discriminate.
  apply scan_body_result in Hb as [Hnb Hret].
  destruct c as [| | |[e|]]; try done; try apply IH.
  - intros [= <- <-]. split; [done|]. intros [=].
  - intros [= <- <-]. split; [done|]. auto.
Qed.

(** X19.  [Scan] returns nil only through the test of [a.scanning] in
    its loop: whenever it returns nil, the flag is clear, so something
    run meanwhile, the callback for one, has stopped the scan. *)
Theorem Scan_nil_only_when_stopped (fuel : nat) (s s' : St) :
  Scan callback fuel s = Done None s' -> a_scanning s' = false.
Proof.
  unfold Scan. unfold bind at 1. unfold get at 1.
  destruct (a_scanning s); [discriminate|].
  unfold bind at 1.
  destruct (leSetScanEnable fuel false true s) as [[e|] s1| |];
    try discriminate.
  unfold bind at 1.
  destruct (leSetScanParameters _ _ _ _ _ _ s1) as [[e|] s2| |];
    try discriminate.
  unfold bind at 1. unfold bind at 1.
  destruct (leSetScanEnable fuel true false _) as [[e|] s3| |];
    try discriminate.
  unfold bind at 1.
  destruct (for_ever fuel _ s3) as [r s4| |] eqn:Hloop; try discriminate.
  apply scan_loop_result in Hloop as [Hne Hnil].
  destruct r as [[e|]|]; try done.
  intros [= <-]. by apply Hnil.
Qed.

End ScanLoop.

Lemma Scan_nil_only_when_stopped_witness :
  a_scanning scan_session_end = false.
Proof.
  apply (Scan_nil_only_when_stopped stop_on_first_result 40
           (boot (stream scan_session)) scan_session_end).
  vm_compute. reflexivity.
Defined.

(** * Bringing the adapter up *)





(** X21.  On a controller that never answers, [Enable] drops what is
    buffered, writes the reset packet and nothing else, and returns the
    time-out of the reset. *)
Theorem Enable_silent_controller (d fuel : nat) (stale : list Z) (s : St) :
  rx (uart s) = stream stale ->
  wfail (uart s) (length (tx (uart s))) = false ->
  (forall k, (k < d)%nat ->
     elapsed s (clock (time s) (ticks (time s))) (S k + ticks (time s)) <= 3) ->
  elapsed s (clock (time s) (ticks (time s))) (S d + ticks (time s)) > 3 ->
  (S (length stale) <= fuel)%nat -> (d + 3 <= fuel)%nat ->
  exists s',
    Enable fuel s = Done (Some ErrHCITimeout) s'
    /\ tx (uart s') = reset_packet :: tx (uart s)
    /\ rx (uart s') = []
    /\ ticks (time s') = (d + 2 + ticks (time s))%nat.
Proof.
  intros Hrx Hw Hbefore Hafter Hfs Hfc.
  set (s0 := with_hci (fun _ => newHCI) s).
  set (s1 := with_uart (fun u => mkUART [] (tx u) (wfail u)) s0).
  assert (start fuel s0 = Done None s1) as Hstart.
  { replace fuel with (S (length stale) + (fuel - S (length stale)))%nat
      by lia.
    apply (start_loop_drains stale []); [discriminate|].
    by rewrite app_nil_r. }
  assert (sendCommandWithParams fuel RESET [] s1
          = Done (Some ErrHCITimeout) (tick (S d) (sent_state RESET [] s1)))
    as Hreset.
  { replace fuel with (d + 3 + (fuel - (d + 3)))%nat by lia.
    apply sendCommandWithParams_silent;
      [ reflexivity | cbn [length]; lia | exact Hw | reflexivity
      | vm_compute; congruence | exact Hbefore | exact Hafter ]. }
  eexists. split; [|split; [|split]].
  - unfold Enable.
    run ltac:(reflexivity). run ltac:(reflexivity). run ltac:(reflexivity).
    run ltac:(exact Hstart).
    run ltac:(exact Hreset). reflexivity.
  - reflexivity.
  - reflexivity.
  - cbn [tick sent_state time ticks s1 s0 with_uart with_hci]. lia.
Qed.

Lemma Enable_silent_controller_witness :
  exists s',
    Enable 6 (boot (stream [0xff; 0x00])) = Done (Some ErrHCITimeout) s'
    /\ tx (uart s') = reset_packet :: tx (uart (boot (stream [0xff; 0x00])))
    /\ rx (uart s') = []
    /\ ticks (time s') = (3 + 2 + 0)%nat.
Proof.
  apply (Enable_silent_controller 3 6 [0xff; 0x00]
           (boot (stream [0xff; 0x00]))).
  - reflexivity.
  - reflexivity.
  - intros k Hk. destruct k as [|[|[|k]]]; [vm_compute; discriminate..|lia].
  - vm_compute. reflexivity.
  - simpl. lia.
  - lia.
Defined.

(** * LE meta events *)

Ltac normc :=
  unfold modify_adv, modify_conn, modify_hci, gets, with_conn, with_slot;
  norm;
  cbn [connected conn_status handle role conn_peerBdaddrType conn_peerBdaddr
       a_hci connectData].

Lemma handleEventData_conn_complete (adv : bool -> M (option error))
    (sub status lo hi role atype : Z) (addr tail B : list Z)
    (rest : list (option Z)) (s : St) :
  sub = LE_META_EVENT_CONN_COMPLETE
  \/ sub = LE_META_EVENT_ENHANCED_CONNECTION_COMPLETE ->
  length addr = 6%nat ->
  length (conn_peerBdaddr (connectData (a_hci s))) = 6%nat ->
  (length tail <= 240)%nat ->
  let frame := conn_complete sub status lo hi role atype addr tail in
  handleEventData adv (mkSlice 1 (len frame - 1) 255)
    (received (loaded frame B) rest s)
  = Done None
      (with_conn (mkConn true status (u16_of_bytes lo hi) role atype addr)
         (received (loaded frame B) rest s)).
Proof.
  intros Hsub Haddr Hold Htail frame.
  destruct addr as [|a0 [|a1 [|a2 [|a3 [|a4 [|a5 [|]]]]]]]; try discriminate.
  destruct s as [[r t w] tm [b ad co cs cr sc av cd] asc].
  destruct cd as [cc cst ch cro cat caddr].
  simpl in Hold.
  subst frame. unfold conn_complete, received. normc.
  unfold handleEventData.
  run ltac:(frame_byte). run ltac:(frame_byte).
  change (EVT_LE_META_EVENT =? EVT_DISCONN_COMPLETE) with false.
  change (EVT_LE_META_EVENT =? EVT_ENCRYPTION_CHANGE) with false.
  change (EVT_LE_META_EVENT =? EVT_CMD_COMPLETE) with false.
  change (EVT_LE_META_EVENT =? EVT_CMD_STATUS) with false.
  change (EVT_LE_META_EVENT =? EVT_NUM_COMP_PKTS) with false.
  change (EVT_LE_META_EVENT =? EVT_LE_META_EVENT) with true. cbv iota.
  run ltac:(frame_byte).
  assert (((sub =? LE_META_EVENT_CONN_COMPLETE)
           || (sub =? LE_META_EVENT_ENHANCED_CONNECTION_COMPLETE)) = true)
    as ->.
  { destruct Hsub as [-> | ->]; reflexivity. }
  unfold handleConnComplete.
  run ltac:(reflexivity). normc.
  run ltac:(frame_byte). run ltac:(reflexivity). normc.
  run ltac:(frame_byte). run ltac:(frame_byte).
  run ltac:(reflexivity). normc.
  run ltac:(frame_byte). run ltac:(reflexivity). normc.
  run ltac:(frame_byte). run ltac:(reflexivity). normc.
  run ltac:(apply reslice_eq; cbn [s_cap]; lia).
  run ltac:(reflexivity). normc.
  run ltac:(reflexivity). normc.
  rewrite copy_list_same_length by (rewrite Hold; reflexivity).
  reflexivity.
Qed.

(** X22.  A connection-complete event, plain or enhanced, that carries
    the whole address sets the connection data from its bytes: status,
    handle (low byte first), role, address type, address; [connected]
    is set whatever the status byte is. *)
Theorem poll_connection_complete (sub status lo hi role atype : Z)
    (addr tail : list Z) (rest : list (option Z)) (fuel : nat) (s : St) :
  let frame := conn_complete sub status lo hi role atype addr tail in
  sub = LE_META_EVENT_CONN_COMPLETE
  \/ sub = LE_META_EVENT_ENHANCED_CONNECTION_COMPLETE ->
  Forall is_byte (status :: lo :: hi :: role :: atype :: addr ++ tail) ->
  length addr = 6%nat -> (length tail <= 240)%nat ->
  length (conn_peerBdaddr (connectData (a_hci s))) = 6%nat ->
  length (buf (a_hci s)) = 256%nat ->
  rx (uart s) = stream frame ++ rest ->
  poll (length frame + fuel) s
  = Done None
      (with_conn (mkConn true status (u16_of_bytes lo hi) role atype addr)
         (received (loaded frame (buf (a_hci s))) rest s)).
Proof.
  intros frame Hsub Hbytes Haddr Htail Hold Hbuf Hrx.
  unfold frame, conn_complete.
  rewrite (poll_event EVT_LE_META_EVENT _ rest).
  - by apply handleEventData_conn_complete.
  - unfold is_byte, EVT_LE_META_EVENT. lia.
  - apply Forall_cons_2; [|done].
    destruct Hsub as [-> | ->]; unfold is_byte; done.
  - cbn [length]. rewrite length_app, Haddr. lia.
  - done.
  - exact Hrx.
Qed.

Lemma poll_connection_complete_witness :
  poll (length (conn_complete 0x01 0x3e 0x40 0x00 0 0
                  [0xAA; 0xBB; 0xCC; 0xDD; 0xEE; 0xFF] [0x18; 0x00]) + 0)
       (boot (stream (conn_complete 0x01 0x3e 0x40 0x00 0 0
                        [0xAA; 0xBB; 0xCC; 0xDD; 0xEE; 0xFF] [0x18; 0x00])
                ++ []))
  = Done None
      (with_conn
         (mkConn true 0x3e (u16_of_bytes 0x40 0x00) 0 0
                 [0xAA; 0xBB; 0xCC; 0xDD; 0xEE; 0xFF])
         (received
            (loaded (conn_complete 0x01 0x3e 0x40 0x00 0 0
                       [0xAA; 0xBB; 0xCC; 0xDD; 0xEE; 0xFF] [0x18; 0x00])
                    (zeros 256))
            []
            (boot (stream (conn_complete 0x01 0x3e 0x40 0x00 0 0
                             [0xAA; 0xBB; 0xCC; 0xDD; 0xEE; 0xFF]
                             [0x18; 0x00]) ++ [])))).
Proof.
  apply (poll_connection_complete 0x01 0x3e 0x40 0x00 0 0
           [0xAA; 0xBB; 0xCC; 0xDD; 0xEE; 0xFF] [0x18; 0x00] [] 0
           (boot (stream (conn_complete 0x01 0x3e 0x40 0x00 0 0
                            [0xAA; 0xBB; 0xCC; 0xDD; 0xEE; 0xFF]
                            [0x18; 0x00]) ++ [])));
    try reflexivity.
  - by left.
  - closed_bytes.
  - simpl. lia.
Defined.

Lemma handleEventData_le_meta_other (adv : bool -> M (option error))
    (sub : Z) (tail B : list Z) (rest : list (option Z)) (s : St) :
  sub <> LE_META_EVENT_CONN_COMPLETE ->
  sub <> LE_META_EVENT_ENHANCED_CONNECTION_COMPLETE ->
  sub <> LE_META_EVENT_ADVERTISING_REPORT ->
  let frame := event_frame EVT_LE_META_EVENT (sub :: tail) in
  handleEventData adv (mkSlice 1 (len frame - 1) 255)
    (received (loaded frame B) rest s)
  = Done None
      (if (sub =? LE_META_EVENT_LONG_TERM_KEY_REQUEST)
          || (sub =? LE_META_EVENT_REMOTE_CONN_PARAM_REQ)
          || (sub =? LE_META_EVENT_READ_LOCAL_P256_COMPLETE)
          || (sub =? LE_META_EVENT_GENERATE_DH_KEY_COMPLETE)
       then received (loaded frame B) rest s
       else with_slot cleared (received (loaded frame B) rest s)).
Proof.
  intros H1 H2 H3 frame.
  apply Z.eqb_neq in H1, H2, H3.
  destruct s as [[r t w] tm [b ad co cs cr sc av cd] asc].
  subst frame. unfold received. norm.
  unfold handleEventData.
  run ltac:(frame_byte). run ltac:(frame_byte).
  change (EVT_LE_META_EVENT =? EVT_DISCONN_COMPLETE) with false.
  change (EVT_LE_META_EVENT =? EVT_ENCRYPTION_CHANGE) with false.
  change (EVT_LE_META_EVENT =? EVT_CMD_COMPLETE) with false.
  change (EVT_LE_META_EVENT =? EVT_CMD_STATUS) with false.
  change (EVT_LE_META_EVENT =? EVT_NUM_COMP_PKTS) with false.
  change (EVT_LE_META_EVENT =? EVT_LE_META_EVENT) with true. cbv iota.
  run ltac:(frame_byte).
  rewrite H1, H2, H3. cbn [orb].
  destruct (_ || _); reflexivity.
Qed.

(** X23.  Of an LE meta event that is neither a connection nor an
    advertising report the decoder reads the subevent code only: the
    codes 5, 6, 8 and 9 change nothing, every other code clears the slot
    of the advertising report; [poll] returns nil in both cases. *)
Theorem poll_le_meta_other (sub : Z) (tail : list Z)
    (rest : list (option Z)) (fuel : nat) (s : St) :
  let frame := event_frame EVT_LE_META_EVENT (sub :: tail) in
  Forall is_byte (sub :: tail) -> (length tail <= 251)%nat ->
  sub <> LE_META_EVENT_CONN_COMPLETE ->
  sub <> LE_META_EVENT_ENHANCED_CONNECTION_COMPLETE ->
  sub <> LE_META_EVENT_ADVERTISING_REPORT ->
  length (buf (a_hci s)) = 256%nat ->
  rx (uart s) = stream frame ++ rest ->
  poll (length frame + fuel) s
  = Done None
      (if (sub =? LE_META_EVENT_LONG_TERM_KEY_REQUEST)
          || (sub =? LE_META_EVENT_REMOTE_CONN_PARAM_REQ)
          || (sub =? LE_META_EVENT_READ_LOCAL_P256_COMPLETE)
          || (sub =? LE_META_EVENT_GENERATE_DH_KEY_COMPLETE)
       then received (loaded frame (buf (a_hci s))) rest s
       else with_slot cleared
              (received (loaded frame (buf (a_hci s))) rest s)).
Proof.
  intros frame Hbytes Htail H1 H2 H3 Hbuf Hrx.
  unfold frame.
  rewrite (poll_event EVT_LE_META_EVENT _ rest).
  - by apply handleEventData_le_meta_other.
  - unfold is_byte, EVT_LE_META_EVENT. lia.
  - done.
  - cbn [length]. lia.
  - done.
  - exact Hrx.
Qed.

Lemma poll_le_meta_other_witness :
  poll (length (event_frame EVT_LE_META_EVENT [0x03; 0x00]) + 0)
       (boot (stream (event_frame EVT_LE_META_EVENT [0x03; 0x00]) ++ []))
  = Done None
      (with_slot cleared
         (received
            (loaded (event_frame EVT_LE_META_EVENT [0x03; 0x00]) (zeros 256))
            []
            (boot (stream (event_frame EVT_LE_META_EVENT [0x03; 0x00])
                     ++ [])))).
Proof.
  apply (poll_le_meta_other 0x03 [0x00] [] 0
           (boot (stream (event_frame EVT_LE_META_EVENT [0x03; 0x00])
                    ++ [])));
    try reflexivity; try discriminate.
  - closed_bytes.
  - simpl. lia.
Defined.

(** * Event frames that declare more than 252 parameter bytes *)

(** One byte read by the loop of [poll]: what is left of the iteration
    runs with the byte stored behind the [pre] read before it. *)
Lemma poll_loop_read (fuel : nat) (pre B : list Z) (x : Z)
    (r : list (option Z)) (s : St) :
  rx (uart s) = Some x :: r -> is_byte x ->
  buf (a_hci s) = loaded pre B -> length B = 256%nat ->
  (length pre < 255)%nat ->
  poll_loop (S fuel) (len pre) s
  = (let i := len (pre ++ [x]) in
     let* b0 := buf_load 0 in
     if b0 =? HCI_ACLDATA_PKT then
       if i >? HCIACLHeaderLen then
         let* b3 := buf_load 3 in
         let* b4 := buf_load 4 in
         if i >=? acl_full_length b3 b4 then
           let* hb := buf_slice in
           let* pkt := reslice hb 1 i in
           handleACLData pkt
         else sleep 10 >> poll_loop fuel i
       else sleep 10 >> poll_loop fuel i
     else if b0 =? HCI_EVENT_PKT then
       if i >? HCIEvtHeaderLen then
         let* b2 := buf_load 2 in
         if i >=? evt_full_length b2 then
           let* hb := buf_slice in
           let* pkt := reslice hb 1 i in
           handleEventData
             (leSetAdvertiseEnable_with (sendCommandWithParams fuel)) pkt
         else sleep 10 >> poll_loop fuel i
       else sleep 10 >> poll_loop fuel i
     else
       sleep 10 >> poll_loop fuel 0)
      (received (loaded (pre ++ [x]) B) r s).
Proof.
  intros Hrx Hx Hbuf HB Hpre.
  rewrite poll_loop_unfold.
  destruct s as [[r0 t w] tm [b ad co cs cr sc av cd] asc].
  simpl in Hrx, Hbuf. subst r0 b.
  run ltac:(reflexivity). norm.
  change (u8 <$> Some x) with (Some (u8 x)). cbv iota. rewrite (u8_byte x Hx).
  run ltac:(apply buf_store_eq; norm; unfold len;
            rewrite length_loaded by lia; lia).
  norm.
  replace (Z.to_nat (len pre)) with (length pre) by (unfold len; lia).
  rewrite insert_loaded by lia.
  assert (u8 (len pre + 1) = len (pre ++ [x])) as ->.
  { unfold len. rewrite length_app, Nat2Z.inj_add. simpl.
    apply u8_byte. unfold is_byte. lia. }
  reflexivity.
Qed.

(** X24.  The length an event frame is waited for is [3 + plen] in a
    byte: for a parameter length of 253, 254 or 255 it wraps below 3, and
    the decoder is called as soon as the fourth byte is read, on
    [h.buf[1:4]], the code, the length and one parameter byte; the
    parameter bytes that follow are left on the transport. *)
Theorem poll_oversized_event (evt plen p0 : Z) (rest : list (option Z))
    (fuel : nat) (s : St) :
  is_byte evt -> 253 <= plen <= 255 -> is_byte p0 ->
  length (buf (a_hci s)) = 256%nat ->
  rx (uart s) = stream [HCI_EVENT_PKT; evt; plen; p0] ++ rest ->
  poll (4 + fuel) s
  = handleEventData (leSetAdvertiseEnable fuel) (mkSlice 1 3 255)
      (received (loaded [HCI_EVENT_PKT; evt; plen; p0] (buf (a_hci s)))
                rest s).
Proof.
  intros Hevt Hplen Hp0 Hbuf Hrx.
  assert (is_byte HCI_EVENT_PKT) as H4 by (unfold is_byte, HCI_EVENT_PKT; lia).
  assert (is_byte plen) as Hpl by (unfold is_byte; lia).
  set (B := buf (a_hci s)) in *.
  unfold poll. change 0 with (len (@nil Z)).
  change (4 + fuel)%nat with (S (S (S (S fuel)))).
  rewrite (poll_loop_read _ [] B HCI_EVENT_PKT _ s Hrx H4 eq_refl Hbuf)
    by (cbn [length]; lia).
  cbv zeta. cbn [app].
  run ltac:(apply (buf_load_eq 0 HCI_EVENT_PKT); [lia | reflexivity]).
  change (HCI_EVENT_PKT =? HCI_ACLDATA_PKT) with false.
  change (HCI_EVENT_PKT =? HCI_EVENT_PKT) with true.
  change (len [HCI_EVENT_PKT] >? HCIEvtHeaderLen) with false. cbv iota.
  run ltac:(reflexivity).
  rewrite (poll_loop_read _ [HCI_EVENT_PKT] B evt
             (stream [plen; p0] ++ rest)) by (done || (cbn [length]; lia)).
  cbv zeta. cbn [app].
  run ltac:(apply (buf_load_eq 0 HCI_EVENT_PKT); [lia | reflexivity]).
  change (HCI_EVENT_PKT =? HCI_ACLDATA_PKT) with false.
  change (HCI_EVENT_PKT =? HCI_EVENT_PKT) with true.
  change (len [HCI_EVENT_PKT; evt] >? HCIEvtHeaderLen) with false. cbv iota.
  run ltac:(reflexivity).
  rewrite (poll_loop_read _ [HCI_EVENT_PKT; evt] B plen
             (stream [p0] ++ rest)) by (done || (cbn [length]; lia)).
  cbv zeta. cbn [app].
  run ltac:(apply (buf_load_eq 0 HCI_EVENT_PKT); [lia | reflexivity]).
  change (HCI_EVENT_PKT =? HCI_ACLDATA_PKT) with false.
  change (HCI_EVENT_PKT =? HCI_EVENT_PKT) with true.
  change (len [HCI_EVENT_PKT; evt; plen] >? HCIEvtHeaderLen) with false.
  cbv iota.
  run ltac:(reflexivity).
  rewrite (poll_loop_read _ [HCI_EVENT_PKT; evt; plen] B p0 rest)
    by (done || (cbn [length]; lia)).
  cbv zeta. cbn [app].
  run ltac:(apply (buf_load_eq 0 HCI_EVENT_PKT); [lia | reflexivity]).
  change (HCI_EVENT_PKT =? HCI_ACLDATA_PKT) with false.
  change (HCI_EVENT_PKT =? HCI_EVENT_PKT) with true.
  change (len [HCI_EVENT_PKT; evt; plen; p0] >? HCIEvtHeaderLen) with true.
  cbv iota.
  run ltac:(apply (buf_load_eq 2 plen); [lia | reflexivity]).
  assert ((len [HCI_EVENT_PKT; evt; plen; p0] >=? evt_full_length plen)
          = true) as ->.
  { apply Z.geb_le. unfold evt_full_length, HCIEvtHeaderLen, u8.
    replace (3 + plen) with ((plen - 253) + 1 * 256) by lia.
    rewrite Z.mod_add by lia. rewrite Z.mod_small by lia.
    change (len [HCI_EVENT_PKT; evt; plen; p0]) with 4. lia. }
  run ltac:(reflexivity).
  run ltac:(apply reslice_eq; cbn [s_cap];
            change (len [HCI_EVENT_PKT; evt; plen; p0]) with 4;
            unfold len; cbn [received a_hci buf set_buf];
            rewrite ?length_loaded; cbn [length]; lia).
  cbn [s_off s_cap].
  change (len [HCI_EVENT_PKT; evt; plen; p0]) with 4.
  match goal with
  | |- context [len (buf (a_hci ?st))] =>
      replace (len (buf (a_hci st))) with 256
        by (cbn [received a_hci buf set_buf]; unfold len;
            rewrite length_loaded; [lia | cbn [length]; lia])
  end.
  reflexivity.
Qed.

Lemma poll_oversized_event_witness :
  poll (4 + 0) (boot (stream [HCI_EVENT_PKT; 0xff; 0xfe; 0x01] ++ [Some 0x02]))
  = handleEventData (leSetAdvertiseEnable 0) (mkSlice 1 3 255)
      (received (loaded [HCI_EVENT_PKT; 0xff; 0xfe; 0x01] (zeros 256))
         [Some 0x02]
         (boot (stream [HCI_EVENT_PKT; 0xff; 0xfe; 0x01] ++ [Some 0x02]))).
Proof.
  apply (poll_oversized_event 0xff 0xfe 0x01 [Some 0x02] 0
           (boot (stream [HCI_EVENT_PKT; 0xff; 0xfe; 0x01] ++ [Some 0x02])));
    try reflexivity; unfold is_byte; lia.
Defined.
